(** * India Air Quality dashboard (app.py): loader, filter, KPIs and alerts

    A shallow embedding of the tabular logic of [app.py].  The pandas
    objects are modelled as the script uses them:

    - a DataFrame is its list of column names and its rows in index order;
    - a cell that pandas shows as NaN / NaT / None is [None];
    - a timestamp ([pd.Timestamp], an int64 count of nanoseconds) is a [Z];
    - an AQI or pollutant reading is a finite rational; comparisons
      against the thresholds are exact.  [Aggregator.mean] is the mean
      without rounding; where the outcome depends on which of two
      per-city means is the greater, [Computed] takes the mean of a
      group as float64 arithmetic returns it, as a parameter.

    [pd.read_csv] is modelled by its outcome and [pd.to_datetime] is a
    section variable: how pandas tokenises a file or parses a date is
    not part of the script.  The loader takes the sort of line 63 as a
    section variable as well; [Npysort] gives the sort pandas runs
    there, numpy's introsort on the timestamps. *)

From Stdlib Require Import List String Ascii Bool Arith ZArith QArith Lia Lqa.
From Stdlib Require Import Sorted Permutation OrderedTypeEx.
Import ListNotations.

Local Open Scope string_scope.
Local Open Scope list_scope.

(** ** Frames *)

Module Frame.

(** A float64 cell: [None] is NaN. *)
Definition num := option Q.

Definition Timestamp := Z.

(** One row of [df] after the [Date] column has been replaced by parsed
    timestamps (lines 57-60).  The six pollutant columns ride along. *)
Record Row := mkRow {
  City : option string;
  Date : option Timestamp;
  AQI : num;
  pollutants : list num
}.

Record DataFrame := mkFrame {
  columns : list string;
  rows : list Row
}.

(** ['AQI' in df.columns] *)
Definition in_columns (name : string) (df : DataFrame) : bool :=
  existsb (String.eqb name) (columns df).

(** [df.empty]: some axis has length 0. *)
Definition empty (df : DataFrame) : bool :=
  match rows df, columns df with
  | [], _ => true
  | _, [] => true
  | _, _ => false
  end.

Definition notna {A} (c : option A) : bool :=
  match c with Some _ => true | None => false end.

(** [Series.dropna()] *)
Definition dropna {A} (s : list (option A)) : list (option A) :=
  filter notna s.

(** [df['City'] == city] on one cell; a NaN cell equals nothing. *)
Definition city_is (city : string) (r : Row) : bool :=
  match City r with
  | Some c => String.eqb c city
  | None => false
  end.

(** [df[df['City'] == city]] *)
Definition rows_of_city (city : string) (view : list Row) : list Row :=
  filter (city_is city) view.

End Frame.
Import Frame.

(** ** Alert classifier (lines 161-174) *)

Module Alerts.

Inductive AlertLevel := Good | Moderate | Poor | Severe.

Inductive Alert :=
| Banner (level : AlertLevel)
| NoData.

(** [latest_aqi <= k] on float64: any comparison with NaN is False. *)
Definition le_num (x : num) (k : Q) : bool :=
  match x with
  | Some q => Qle_bool q k
  | None => false
  end.

(** The if/elif/else chain of lines 165-172. *)
Definition classify (latest_aqi : num) : AlertLevel :=
  if le_num latest_aqi 50 then Good
  else if le_num latest_aqi 100 then Moderate
  else if le_num latest_aqi 200 then Poor
  else Severe.

(** [s.iloc[-1]]; only reached on a non-empty series (see
    [guard_nonempty]). *)
Definition iloc_last (s : list num) : num := last s None.

(** [city_data = filtered_df[filtered_df['City'] == city]] *)
Definition city_data (filtered_df : DataFrame) (city : string) : DataFrame :=
  mkFrame (columns filtered_df) (rows_of_city city (rows filtered_df)).

(** One iteration of the loop of line 161. *)
Definition alert_for (filtered_df : DataFrame) (city : string) : Alert :=
  let cd := city_data filtered_df city in
  let aqi := map AQI (rows cd) in
  if in_columns "AQI" cd && negb (Nat.eqb (List.length (dropna aqi)) 0)
  then Banner (classify (iloc_last aqi))
  else NoData.

Definition alerts (filtered_df : DataFrame) (selected_cities : list string)
  : list (string * Alert) :=
  map (fun city => (city, alert_for filtered_df city)) selected_cities.

End Alerts.

(** ** Filter engine (lines 82-87) *)

Module FilterEngine.

(** What the sidebar hands to the mask: the chosen cities and the two
    ends of the date range, [pd.Timestamp(date_range[0])] and
    [pd.Timestamp(date_range[-1])]. *)
Record Selection := mkSelection {
  selected_cities : list string;
  date_start : Timestamp;
  date_end : Timestamp
}.

(** [df['City'].isin(selected_cities)] on one cell. *)
Definition isin (c : option string) (l : list string) : bool :=
  match c with
  | Some c => existsb (String.eqb c) l
  | None => false
  end.

(** [df['Date'] >= t] and [df['Date'] <= t]; NaT compares False. *)
Definition date_ge (d : option Timestamp) (t : Timestamp) : bool :=
  match d with
  | Some x => (t <=? x)%Z
  | None => false
  end.

Definition date_le (d : option Timestamp) (t : Timestamp) : bool :=
  match d with
  | Some x => (x <=? t)%Z
  | None => false
  end.

Definition mask (sel : Selection) (r : Row) : bool :=
  isin (City r) (selected_cities sel)
  && date_ge (Date r) (date_start sel)
  && date_le (Date r) (date_end sel).

(** [filtered_df = df.loc[mask]] *)
Definition filtered_df (df : DataFrame) (sel : Selection) : DataFrame :=
  mkFrame (columns df) (filter (mask sel) (rows df)).

End FilterEngine.

(** ** KPI metrics and per-city averages (lines 95-104, 128-129) *)

Module Aggregator.

(** [Series.sum()] and [Series.count()] with NaN skipped. *)
Fixpoint nansum (s : list num) : Q :=
  match s with
  | [] => 0
  | Some x :: t => x + nansum t
  | None :: t => nansum t
  end.

Fixpoint count (s : list num) : nat :=
  match s with
  | [] => 0
  | Some _ :: t => S (count t)
  | None :: t => count t
  end.

(** [Series.mean()]: NaN when no cell is left after skipping NaN. *)
Definition mean (s : list num) : num :=
  match count s with
  | O => None
  | S _ => Some (nansum s / inject_Z (Z.of_nat (count s)))
  end.

(** [groupby('City')] with its defaults [sort=True, dropna=True]: the
    group keys are the distinct non-null cities in ascending string
    order. *)
Fixpoint insert_key (c : string) (keys : list string) : list string :=
  match keys with
  | [] => [c]
  | k :: ks =>
      match String.compare c k with
      | Lt => c :: keys
      | Eq => keys
      | Gt => k :: insert_key c ks
      end
  end.

Fixpoint group_keys (view : list Row) : list string :=
  match view with
  | [] => []
  | r :: rest =>
      match City r with
      | Some c => insert_key c (group_keys rest)
      | None => group_keys rest
      end
  end.

(** [filtered_df.groupby('City')['AQI'].mean()]: one entry per group
    key, in key order. *)
Definition groupby_City_AQI_mean (view : list Row) : list (string * num) :=
  map (fun c => (c, mean (map AQI (rows_of_city c view)))) (group_keys view).

(** [Series.idxmax()] / [Series.idxmin()] with [skipna=True] go through
    numpy's [nanargmax] / [nanargmin]: one left-to-right scan that keeps
    the first entry no later entry beats, NaN entries skipped.  [None]
    stands for the all-NaN series, where pandas answers NaN or raises
    depending on its version; no label is produced. *)
Fixpoint scan_from (beats : Q -> Q -> bool) (best : string) (best_val : Q)
  (s : list (string * num)) : string :=
  match s with
  | [] => best
  | (c, Some x) :: t =>
      if beats x best_val then scan_from beats c x t
      else scan_from beats best best_val t
  | (_, None) :: t => scan_from beats best best_val t
  end.

Fixpoint first_extreme (beats : Q -> Q -> bool) (s : list (string * num))
  : option string :=
  match s with
  | [] => None
  | (c, Some x) :: t => Some (scan_from beats c x t)
  | (_, None) :: t => first_extreme beats t
  end.

Definition gt_num (x best : Q) : bool := negb (Qle_bool x best).
Definition lt_num (x best : Q) : bool := negb (Qle_bool best x).

Definition idxmax (s : list (string * num)) : option string :=
  first_extreme gt_num s.

Definition idxmin (s : list (string * num)) : option string :=
  first_extreme lt_num s.

Definition worst_city (view : list Row) : option string :=
  idxmax (groupby_City_AQI_mean view).

Definition best_city (view : list Row) : option string :=
  idxmin (groupby_City_AQI_mean view).

(** The KPI block: three metrics, or the warning of line 104. *)
Inductive Kpi :=
| Metrics (avg_aqi : num) (worst best : option string)
| Unavailable.

Definition kpi (filtered_df : DataFrame) : Kpi :=
  if in_columns "AQI" filtered_df && negb (empty filtered_df)
  then Metrics (mean (map AQI (rows filtered_df)))
               (worst_city (rows filtered_df))
               (best_city (rows filtered_df))
  else Unavailable.

(** [aqi_avg] of line 129; [None] when the AQI column is absent and the
    bar chart is skipped. *)
Definition aqi_avg (filtered_df : DataFrame) : option (list (string * num)) :=
  if in_columns "AQI" filtered_df
  then Some (groupby_City_AQI_mean (rows filtered_df))
  else None.

(** The three operations the specification names. *)
Definition overallMean (view : DataFrame) : option num :=
  match kpi view with
  | Metrics avg _ _ => Some avg
  | Unavailable => None
  end.

Definition extremeCity (view : DataFrame)
  : option (option string * option string) :=
  match kpi view with
  | Metrics _ worst best => Some (worst, best)
  | Unavailable => None
  end.

Definition perCityMeans (view : DataFrame) : list (string * num) :=
  match aqi_avg view with
  | Some s => s
  | None => []
  end.

End Aggregator.

(** ** Loading and cleaning (lines 47-63) *)

Module Loader.

(** A row as [pd.read_csv] returns it: the date columns are still text. *)
Record CsvRow := mkCsvRow {
  csv_City : option string;
  csv_Datetime : option string;
  csv_Date : option string;
  csv_AQI : num;
  csv_pollutants : list num
}.

Record CsvFrame := mkCsvFrame {
  csv_columns : list string;
  csv_rows : list CsvRow
}.

Inductive exn :=
| FileNotFoundError
| EmptyDataError
| ParserError
| KeyError (column : string)
| IndexError
| StreamlitAPIException
| ValueError (column : string).

(** What [pd.read_csv("city_day.csv")] makes of the file on disk: it
    raises (no such file, no header line, a line it cannot tokenise, ...)
    or it returns a frame.  How pandas tokenises lines is not modelled.
    A header line followed by no data line is returned as a frame with
    the header's columns and no row. *)
Inductive Source :=
| Unreadable (e : exn)
| Parsed (csv : CsvFrame).

Definition read_csv (src : Source) : exn + CsvFrame :=
  match src with
  | Unreadable e => inl e
  | Parsed csv => inr csv
  end.

Definition has_column (name : string) (cols : list string) : bool :=
  existsb (String.eqb name) cols.

(** [df.dropna(subset=['City', 'Date'])] *)
Definition keep (r : Row) : bool := notna (City r) && notna (Date r).

Inductive LoadResult :=
| LoadError                (* st.error(...); st.stop() *)
| Uncaught (e : exn)       (* an exception outside the try block *)
| Loaded (df : DataFrame).

Section Clean.

(** [pd.to_datetime(column, errors='coerce')]: a column of text cells to
    a column of timestamps, NaT where a cell does not parse. *)
Variable to_datetime : list (option string) -> list (option Timestamp).

(** The row order produced by [df.sort_values(by='Date')]. *)
Variable sort_values : list Row -> list Row.

(** [df['Date'] = dates]: the new column is aligned with the rows by
    position; a row the column does not reach gets NaT. *)
Fixpoint assign_Date (rs : list CsvRow) (dates : list (option Timestamp))
  : list Row :=
  match rs with
  | [] => []
  | r :: rs' =>
      mkRow (csv_City r) (hd None dates) (csv_AQI r) (csv_pollutants r)
      :: assign_Date rs' (tl dates)
  end.

Definition with_Date (date_of : CsvRow -> option string) (rs : list CsvRow)
  : list Row :=
  assign_Date rs (to_datetime (map date_of rs)).

(** Lines 57-63. *)
Definition clean (csv : CsvFrame) : exn + DataFrame :=
  let cols := csv_columns csv in
  if has_column "Datetime" cols then
    let cols' := if has_column "Date" cols then cols else cols ++ ["Date"] in
    if has_column "City" cols
    then inr (mkFrame cols'
                (sort_values (filter keep (with_Date csv_Datetime (csv_rows csv)))))
    else inl (KeyError "City")
  else if has_column "Date" cols then
    if has_column "City" cols
    then inr (mkFrame cols
                (sort_values (filter keep (with_Date csv_Date (csv_rows csv)))))
    else inl (KeyError "City")
  else inl (KeyError "Date").

(** Lines 47-63. *)
Definition load (src : Source) : LoadResult :=
  match read_csv src with
  | inl _ => LoadError
  | inr csv =>
      match clean csv with
      | inl e => Uncaught e
      | inr df => Loaded df
      end
  end.

End Clean.

(** Ascending [Date] order with NaT last, the order [sort_values]
    promises. *)
Definition date_order (a b : Row) : Prop :=
  match Date a, Date b with
  | Some x, Some y => (x <= y)%Z
  | _, None => True
  | None, Some _ => False
  end.

(** What pandas documents for [sort_values] with its default
    [kind='quicksort']: the rows are rearranged into ascending order.
    The order among equal keys is promised only for [kind='stable'] and
    [kind='mergesort'], which the script does not ask for. *)
Record sort_values_spec (sort : list Row -> list Row) : Prop := {
  sort_perm : forall l, Permutation (sort l) l;
  sort_asc : forall l, StronglySorted date_order (sort l)
}.

(** Rows carrying timestamp [t], in list order. *)
Definition at_time (t : Timestamp) (l : list Row) : list Row :=
  filter (fun r => match Date r with Some x => (x =? t)%Z | None => false end) l.

End Loader.

(** ** The specification's wording, for comparison with the code *)

Module Spec.
Import Aggregator FilterEngine Loader.

(** Membership test of a row: its city is one of the chosen cities and its
    timestamp lies in the closed interval. *)
Definition in_selection (sel : Selection) (r : Row) : Prop :=
  (exists c, City r = Some c /\ In c (selected_cities sel)) /\
  (exists t, Date r = Some t /\ (date_start sel <= t <= date_end sel)%Z).

(** [Subseq s l]: [s] is [l] with some elements left out, order kept. *)
Inductive Subseq {A : Type} : list A -> list A -> Prop :=
| Subseq_nil : Subseq [] []
| Subseq_skip x s l : Subseq s l -> Subseq s (x :: l)
| Subseq_keep x s l : Subseq s l -> Subseq (x :: s) (x :: l).

(** The non-null index values of a series. *)
Fixpoint non_null (s : list num) : list Q :=
  match s with
  | [] => []
  | Some x :: t => x :: non_null t
  | None :: t => non_null t
  end.

(** Arithmetic mean: sum over count. *)
Definition arithmetic_mean (xs : list Q) : Q :=
  fold_right Qplus 0 xs / inject_Z (Z.of_nat (List.length xs)).

(** A row that counts towards its city's mean. *)
Definition qualifies (city : string) (r : Row) : bool :=
  city_is city r && notna (AQI r).

(** Position in the view of the first qualifying row of [city]. *)
Fixpoint first_qualifying_row (city : string) (view : list Row) : option nat :=
  match view with
  | [] => None
  | r :: rest =>
      if qualifies city r then Some O
      else option_map S (first_qualifying_row city rest)
  end.

(** The city has at least one non-null index reading in the view. *)
Definition has_reading (city : string) (view : list Row) : bool :=
  existsb (qualifies city) view.

(** The per-city mean as a partial function of the city. *)
Definition city_mean (view : list Row) (city : string) : num :=
  mean (map AQI (rows_of_city city view)).

(** Entry [(r, x)] splits the series so that it beats every value before
    it and no value after it beats it: the first occurrence of the
    extreme value. *)
Definition split_at (beats : Q -> Q -> bool) (s : list (string * num))
  (r : string) (x : Q) (pre post : list (string * num)) : Prop :=
  s = pre ++ (r, Some x) :: post /\
  (forall c' x', In (c', Some x') pre -> beats x x' = true) /\
  (forall c' x', In (c', Some x') post -> beats x' x = false).

(** The entries of [perCityMeans] as the specification words them: one
    for exactly the cities with a non-null reading. *)
Definition entries_are_cities_with_reading : Prop :=
  forall v : DataFrame,
    in_columns "AQI" v = true ->
    forall city,
      (exists m, In (city, m) (perCityMeans v)) <-> has_reading city (rows v) = true.

(** The text column the timestamps are parsed from: [Datetime] when the
    file has one, [Date] otherwise. *)
Definition date_source (csv : CsvFrame) : CsvRow -> option string :=
  if has_column "Datetime" (csv_columns csv) then csv_Datetime else csv_Date.

(** The rows of the file that survive cleaning, in file order. *)
Definition retained (to_datetime : list (option string) -> list (option Timestamp))
  (csv : CsvFrame) : list Row :=
  filter keep (with_Date to_datetime (date_source csv) (csv_rows csv)).

(** Non-decreasing timestamps, both present. *)
Definition timestamp_le (a b : Row) : Prop :=
  match Date a, Date b with
  | Some x, Some y => (x <= y)%Z
  | _, _ => False
  end.

(** Ascending order of city names, character code by character code. *)
Definition name_lt (a b : string) : Prop := String.compare a b = Lt.

End Spec.

(** ** Per-city means as pandas computes them *)

Module Computed.
Import Aggregator Spec.

Definition comes_before (a b : option nat) : Prop :=
  match a, b with
  | Some i, Some j => (i < j)%nat
  | _, _ => False
  end.

Section Rounding.

(** [groupby('City')['AQI'].mean()] adds up the non-null cells of a group
    and divides by their number, in float64.  The roundings are not
    modelled: [group_mean] stands for the number pandas computes from the
    non-null cells of a group, taken in row order.  With
    [Spec.arithmetic_mean] for it, the definitions below are those of
    [Aggregator]. *)
Variable group_mean : list Q -> Q.

Definition mean (s : list num) : num :=
  match non_null s with
  | [] => None
  | cells => Some (group_mean cells)
  end.

Definition city_mean (view : list Row) (city : string) : num :=
  mean (map AQI (rows_of_city city view)).

Definition groupby_City_AQI_mean (view : list Row) : list (string * num) :=
  map (fun c => (c, city_mean view c)) (group_keys view).

(** Lines 97 and 98. *)
Definition worst_city (view : list Row) : option string :=
  idxmax (groupby_City_AQI_mean view).

Definition best_city (view : list Row) : option string :=
  idxmin (groupby_City_AQI_mean view).

(** The tie-break as the specification words it: among the cities whose
    mean equals the extreme mean [m], the one whose first qualifying row
    comes first in the view. *)
Definition tied_at (view : list Row) (m : Q) (city : string) : Prop :=
  exists x, city_mean view city = Some x /\ x == m.

Definition first_tied (view : list Row) (m : Q) (city : string) : Prop :=
  tied_at view m city /\
  forall c', tied_at view m c' -> c' <> city ->
    comes_before (first_qualifying_row city view) (first_qualifying_row c' view).

Definition is_max_mean (view : list Row) (m : Q) : Prop :=
  (exists c, tied_at view m c) /\
  forall c x, city_mean view c = Some x -> x <= m.

Definition is_min_mean (view : list Row) (m : Q) : Prop :=
  (exists c, tied_at view m c) /\
  forall c x, city_mean view c = Some x -> m <= x.

Definition row_order_tie_break : Prop :=
  forall view m city,
    first_tied view m city ->
    (is_max_mean view m -> worst_city view = Some city) /\
    (is_min_mean view m -> best_city view = Some city).

End Rounding.

(** The specification's tie-break holds for the way pandas rounds, if it
    holds for some way of computing a group's mean. *)
Definition row_order_tie_break_possible : Prop :=
  exists group_mean, row_order_tie_break group_mean.

End Computed.

(** ** The sort behind [sort_values] *)

Module Npysort.
Import Loader.

(** [df.sort_values(by='Date')] argsorts the Date column with
    [kind='quicksort'], numpy's introsort on the datetime64 values
    ([aquicksort_] of npysort), after setting the NaT rows aside, and
    takes the rows in that order.  The model moves the rows themselves
    where numpy moves their positions. *)

(** Comparison of two datetime64 cells, NaT last. *)
Definition less (a b : Row) : bool :=
  match Date a, Date b with
  | Some x, Some y => (x <? y)%Z
  | Some _, None => true
  | None, _ => false
  end.

(** Longest prefix on which [p] holds, and the rest. *)
Fixpoint span (p : Row -> bool) (l : list Row) : list Row * list Row :=
  match l with
  | [] => ([], [])
  | x :: t =>
      if p x then let (a, b) := span p t in (x :: a, b)
      else ([], l)
  end.

(** One step of the insertion loop: [x] moves left past the rows that
    are greater; [sorted_rev] is the part already in order, last row
    first. *)
Fixpoint sift (x : Row) (sorted_rev : list Row) : list Row :=
  match sorted_rev with
  | [] => [x]
  | e :: rest => if less x e then e :: sift x rest else x :: sorted_rev
  end.

Definition insertion_sort (seg : list Row) : list Row :=
  rev (fold_left (fun acc x => sift x acc) seg []).

(** Median of three: the first, middle and last row are put in order. *)
Definition median3 (a b c : Row) : Row * Row * Row :=
  let '(a, b) := if less b a then (b, a) else (a, b) in
  let '(b, c) := if less c b then (c, b) else (b, c) in
  let '(a, b) := if less b a then (b, a) else (a, b) in
  (a, b, c).

(** The row under the up pointer changes places with the pivot parked
    behind the last row of [right_done]. *)
Definition rotate (right_done : list Row) : list Row :=
  match right_done with
  | [] => []
  | r :: others => others ++ [r]
  end.

(** The partition loop.  [left_done] and [right_done] are the rows the
    two pointers have passed, [between] the rows between the pointers,
    [pivot] the pivot parked in the last but one place.  The up pointer
    stops at the first row not less than the pivot, the down pointer at
    the first row not greater; they are swapped and the loop goes on
    until the pointers meet, then the row under the up pointer changes
    places with the pivot.  The answer is what lies left and right of the
    pivot's final place. *)
Fixpoint hoare (fuel : nat) (pivot : Row) (left_done between right_done : list Row)
  : list Row * list Row :=
  let (small, rest) := span (fun e => less e pivot) between in
  match rest with
  | [] => (left_done ++ small, rotate right_done)
  | x :: above =>
      let (large_rev, rest_rev) := span (fun e => less pivot e) (rev above) in
      match rest_rev, fuel with
      | y :: inner_rev, S fuel' =>
          hoare fuel' pivot (left_done ++ small ++ [y]) (rev inner_rev)
                (x :: rev large_rev ++ right_done)
      | _, _ => (left_done ++ small, above ++ right_done ++ [x])
      end
  end.

(** One pass of the [while] loop over a segment: median of three, pivot
    to the last but one place, partition. *)
Definition partition (seg : list Row) : option (list Row * Row * list Row) :=
  match seg with
  | [] => None
  | a :: rest =>
      let m := Nat.div2 (List.length rest) in
      match skipn (m - 1) rest with
      | b :: after =>
          match rev after with
          | c :: middle_rev =>
              let before := firstn (m - 1) rest in
              let '(a, b, c) := median3 a b c in
              match middle_rev with
              | z :: inner_rev =>
                  let between := before ++ [z] ++ rev inner_rev in
                  let '(l, r) := hoare (List.length between) b [a] between [] in
                  Some (l, b, r ++ [c])
              | [] =>
                  let '(l, r) := hoare (List.length before) b [a] before [] in
                  Some (l, b, r ++ [c])
              end
          | [] => None
          end
      | [] => None
      end
  end.

Definition SMALL_QUICKSORT : nat := 16.

(** The heapsort numpy falls back on when the recursion gets too deep
    ([aheapsort_]).  [a k] is the row in place [k] of the segment,
    counted from 1 as the C code does after [a = tosort - 1]. *)
Definition Cells : Type := nat -> Row.

(** [a[k] = x] *)
Definition store (a : Cells) (k : nat) (x : Row) : Cells :=
  fun i => if (i =? k)%nat then x else a i.

(** The inner loop, from place [i] with [tmp] in hand:
    [for (j = i << 1; j <= n;) { ... }  a[i] = tmp]. *)
Fixpoint sift_down (fuel : nat) (tmp : Row) (n i : nat) (a : Cells) : Cells :=
  match fuel with
  | S fuel' =>
      let j := (2 * i)%nat in
      if (j <=? n)%nat then
        let j := if (j <? n)%nat && less (a j) (a (j + 1)%nat)
                 then (j + 1)%nat else j in
        if less tmp (a j) then sift_down fuel' tmp n j (store a i (a j))
        else store a i tmp
      else store a i tmp
  | O => store a i tmp
  end.

(** [for (l = n >> 1; l > 0; --l)]: build the heap. *)
Definition heapify (n : nat) (a : Cells) : Cells :=
  fold_left (fun a l => sift_down n (a l) n l a) (rev (seq 1 (Nat.div2 n))) a.

(** One pass of [for (; n > 1;)]: the greatest row goes to place [n],
    the row that was there is sifted down from the top of the rest. *)
Definition extract (a : Cells) (n : nat) : Cells :=
  sift_down n (a n) (n - 1) 1 (store a n (a 1%nat)).

Definition heapsort_cells (n : nat) (a : Cells) : Cells :=
  fold_left extract (rev (seq 2 (n - 1))) (heapify n a).

Definition aheapsort (seg : list Row) : list Row :=
  match seg with
  | [] => []
  | first :: _ =>
      let n := List.length seg in
      map (heapsort_cells n (fun k => nth (k - 1) seg first)) (seq 1 n)
  end.

(** [top] tells whether the segment has just been taken from the stack,
    where the depth is tested, or is the smaller part the loop goes on
    with; the larger part of each partition is put on the stack. *)
Fixpoint quicksort_from (fuel : nat) (top : bool) (cdepth : Z) (seg : list Row)
  : list Row :=
  if top && (cdepth <? 0)%Z then aheapsort seg
  else if (SMALL_QUICKSORT <? List.length seg - 1)%nat then
    match fuel, partition seg with
    | S fuel', Some (l, pivot, r) =>
        let below := (cdepth - 1)%Z in
        if (List.length l <? List.length r)%nat
        then quicksort_from fuel' false below l ++ pivot
               :: quicksort_from fuel' true below r
        else quicksort_from fuel' true below l ++ pivot
               :: quicksort_from fuel' false below r
    | _, _ => insertion_sort seg
    end
  else insertion_sort seg.

Definition aquicksort (seg : list Row) : list Row :=
  quicksort_from (List.length seg) true
    (2 * Z.log2 (Z.of_nat (List.length seg)))%Z seg.

(** [df.sort_values(by='Date')] with its defaults. *)
Definition sort_values (l : list Row) : list Row :=
  aquicksort (filter (fun r => notna (Date r)) l)
    ++ filter (fun r => negb (notna (Date r))) l.

End Npysort.

(** ** Invariants of the heapsort *)

Module HeapInvariants.
Import Loader Npysort.
Local Open Scope nat_scope.

(** Place [c] is one of the two places below place [k]. *)
Definition child (c k : nat) : Prop := c = 2 * k \/ c = 2 * k + 1.

(** Among the places [l..n], no row is earlier than a row below it. *)
Definition heap_in (a : Cells) (l n : nat) : Prop :=
  forall k c, l <= k -> c <= n -> child c k -> date_order (a c) (a k).

(** The places [1..n] form a heap, the places above [n] are in their
    final order and hold no row earlier than one of the heap. *)
Definition sorted_above (a : Cells) (n N : nat) : Prop :=
  heap_in a 1 n /\
  (forall k k', n < k -> k <= k' -> k' <= N -> date_order (a k) (a k')) /\
  (forall k k', 1 <= k -> k <= n -> n < k' -> k' <= N -> date_order (a k) (a k')).

(** Exchange of the places [i] and [j]. *)
Definition transpose (i j k : nat) : nat :=
  if k =? j then i else if k =? i then j else k.

End HeapInvariants.

(** ** Sample frames *)

Module Samples.
Import FilterEngine Loader.

Definition cols : list string := ["City"; "Date"; "AQI"].

Definition reading (city : string) (day : Z) (aqi : num) : Row :=
  mkRow (Some city) (Some day) aqi [].

(** The end-to-end scenario of the specification. *)
Definition scenario : DataFrame :=
  mkFrame cols
    [reading "Delhi" 1 (Some 45%Q); reading "Mumbai" 1 (Some 80%Q);
     reading "Delhi" 2 (Some 220%Q)].

Definition everything : Selection := mkSelection ["Delhi"; "Mumbai"] 1%Z 2%Z.

(** Delhi's newest row has no AQI, an older one has. *)
Definition null_latest : DataFrame :=
  mkFrame cols [reading "Delhi" 1 (Some 45%Q); reading "Delhi" 2 None].

(** Every AQI cell of the view is NaN. *)
Definition all_null : DataFrame :=
  mkFrame cols [reading "Delhi" 1 None].

(** One city without any AQI reading next to one with a reading. *)
Definition one_silent : DataFrame :=
  mkFrame cols [reading "Delhi" 1 None; reading "Mumbai" 1 (Some 80%Q)].

(** Two cities with the same mean; Mumbai's row comes first. *)
Definition tied : DataFrame :=
  mkFrame cols [reading "Mumbai" 1 (Some 100%Q); reading "Delhi" 2 (Some 100%Q)].


Definition csv_reading (city day : string) (aqi : num) : CsvRow :=
  mkCsvRow (Some city) None (Some day) aqi [].

(** Two readings of the same day. *)
Definition same_day : Source :=
  Parsed (mkCsvFrame cols
            [csv_reading "Delhi" "2020-01-01" (Some 45%Q);
             csv_reading "Mumbai" "2020-01-01" (Some 80%Q)]).

(** A stand-in date parser for the samples: the length of the text. *)
Definition sample_to_datetime (column : list (option string))
  : list (option Timestamp) :=
  map (fun cell =>
         match cell with
         | Some text =>
             if String.eqb text "" then None
             else Some (Z.of_nat (String.length text))
         | None => None
         end) column.

End Samples.

(** ** Stability of the load order, as the specification words it *)

Module Stability.
Import Loader Spec.







End Stability.

(** ** Sidebar widgets (lines 68-87) *)

Module Sidebar.
Import FilterEngine.

(** The text cells of [df['City']]; line 62 has removed the rows without
    a city before the sidebar is built. *)
Fixpoint City_column (view : list Row) : list string :=
  match view with
  | [] => []
  | r :: rest =>
      match City r with
      | Some c => c :: City_column rest
      | None => City_column rest
      end
  end.

(** [Series.unique()]: the distinct values in order of first appearance. *)
Fixpoint unique (names : list string) : list string :=
  match names with
  | [] => []
  | c :: rest => c :: filter (fun k => negb (String.eqb k c)) (unique rest)
  end.

(** Python's [sorted] on text: ascending, equal items kept. *)
Fixpoint insort (c : string) (l : list string) : list string :=
  match l with
  | [] => [c]
  | k :: ks =>
      match String.compare c k with
      | Gt => k :: insort c ks
      | _ => c :: l
      end
  end.

Definition sorted (names : list string) : list string :=
  fold_right insort [] names.

(** [cities = sorted(df['City'].unique())], the options of the city
    picker (line 70). *)
Definition cities (df : DataFrame) : list string :=
  sorted (unique (City_column (rows df))).

(** [df['Date'].min()] and [df['Date'].max()]: NaT cells are skipped, the
    answer is NaT when no cell is left (line 75). *)
Definition pick (choose : Z -> Z -> Z) (a b : option Timestamp)
  : option Timestamp :=
  match a, b with
  | Some x, Some y => Some (choose x y)
  | Some x, None => Some x
  | None, _ => b
  end.

Definition Date_min (df : DataFrame) : option Timestamp :=
  fold_right (fun r acc => pick Z.min (Date r) acc) None (rows df).

Definition Date_max (df : DataFrame) : option Timestamp :=
  fold_right (fun r acc => pick Z.max (Date r) acc) None (rows df).

(** The date picker works on calendar days.  [to_date] is
    [Timestamp.date()], the day a timestamp falls on, and
    [Timestamp_of_date] is [pd.Timestamp(date)], midnight of that day. *)
Definition ns_per_day : Z := 86400000000000.

Definition to_date (t : Timestamp) : Z := (t / ns_per_day)%Z.

Definition Timestamp_of_date (d : Z) : Timestamp := (d * ns_per_day)%Z.

(** Lines 84-85 read [date_range[0]] and [date_range[-1]] from the tuple
    of days the picker returns; on the empty tuple the index raises
    ([None]). *)
Definition selection_of_widgets (selected_cities : list string)
  (date_range : list Z) : option Selection :=
  match date_range with
  | [] => None
  | d0 :: _ =>
      Some (mkSelection selected_cities
              (Timestamp_of_date d0)
              (Timestamp_of_date (last date_range d0)))
  end.

End Sidebar.

(** ** The script as a whole *)

Module Page.
Import Loader FilterEngine Aggregator Alerts Sidebar.

(** What the page shows, in script order.  An uncaught exception ends the
    run with its traceback below what was shown before. *)
Inductive Element :=
| Title
| Subtitle
| LoadSuccess
| LoadFailure
| Traceback (e : exn)
| SidebarHeader
| CityPicker (options : list string)
| DatePicker
| PollutantPicker
| Heading (text : string)
| KpiPanel (k : Kpi)
| LineChart (view : DataFrame) (y : string)
| BarChart (aqi_avg : list (string * num))
| BoxChart (view : DataFrame) (y : string)
| AlertLine (city : string) (a : Alert).


(** What the user has set in the sidebar: the cities, the tuple of days
    and the pollutant. *)
Record Widgets := mkWidgets {
  picked_cities : list string;
  picked_dates : list Z;
  picked_pollutant : string
}.

(** [default=["Delhi", "Mumbai", "Chennai"]] of line 71 and the list of
    line 78. *)
Definition default_cities : list string := ["Delhi"; "Mumbai"; "Chennai"].

Definition pollutants : list string :=
  ["PM2.5"; "PM10"; "NO2"; "SO2"; "O3"; "CO"].

(** Lines 123-174. *)
Definition lower_half (view : DataFrame) (y : string) (selected : list string)
  : list Element :=
  Heading "Average AQI Comparison Between Cities"
    :: match aqi_avg view with
       | Some s => [BarChart s]
       | None => []
       end
    ++ [Heading "Pollutant Distribution Across Cities"; BoxChart view y;
        Heading "Latest AQI Alerts"]
    ++ map (fun ca => AlertLine (fst ca) (snd ca)) (alerts view selected).

(** Lines 68-174, once the data is loaded.  The city picker raises when
    one of its defaults is not among the options (line 71), reading the
    ends of an empty tuple of days raises (line 84), and the line chart
    raises when the frame has no column for the chosen pollutant
    (line 111). *)
Definition dashboard (df : DataFrame) (w : Widgets) : list Element :=
  SidebarHeader ::
  if forallb (fun c => existsb (String.eqb c) (cities df)) default_cities then
    CityPicker (cities df) :: DatePicker :: PollutantPicker ::
    match selection_of_widgets (picked_cities w) (picked_dates w) with
    | None => [Traceback IndexError]
    | Some sel =>
        let view := filtered_df df sel in
        Heading "Overall Air Quality Indicators" :: KpiPanel (kpi view) ::
        Heading "Pollutant Level Trends" ::
        if in_columns (picked_pollutant w) view then
          LineChart view (picked_pollutant w)
            :: lower_half view (picked_pollutant w) (picked_cities w)
        else [Traceback (ValueError (picked_pollutant w))]
    end
  else [Traceback StreamlitAPIException].

Section Run.
Variable to_datetime : list (option string) -> list (option Timestamp).
Variable sort_values : list Row -> list Row.


End Run.


End Page.

(** ** More sample frames *)

Module Samples3.
Import Page.

(** A frame the dashboard can be drawn for: the three default cities and
    a PM2.5 column. *)
Definition three_cities : DataFrame :=
  mkFrame ["City"; "Date"; "AQI"; "PM2.5"]
    [Samples.reading "Chennai" 0 (Some 60%Q);
     Samples.reading "Delhi" 0 (Some 220%Q);
     Samples.reading "Mumbai" 0 (Some 80%Q)].

(** Delhi picked, a date range after the data. *)
Definition out_of_range : Widgets := mkWidgets ["Delhi"] [5%Z; 6%Z] "PM2.5".

End Samples3.

(** ** Auxiliary notions used in the statements below *)

Module Derived.
Import FilterEngine Alerts.

(** The bands in increasing severity. *)
Definition severity (level : AlertLevel) : nat :=
  match level with
  | Good => 0
  | Moderate => 1
  | Poor => 2
  | Severe => 3
  end.

(** The selection that asks for both of two selections at once. *)
Definition meet (s1 s2 : Selection) : Selection :=
  mkSelection
    (filter (fun c => isin (Some c) (selected_cities s2)) (selected_cities s1))
    (Z.max (date_start s1) (date_start s2))
    (Z.min (date_end s1) (date_end s2)).

(** A csv row without its [Date] text. *)
Definition without_Date (r : Loader.CsvRow)
  : option string * option string * num * list num :=
  (Loader.csv_City r, Loader.csv_Datetime r, Loader.csv_AQI r,
   Loader.csv_pollutants r).

End Derived.

(** ** More sample frames *)

Module Samples2.
Import FilterEngine.

(** Two readings of one city, the second one nanosecond after midnight
    of the next day. *)
Definition intraday : DataFrame :=
  mkFrame Samples.cols
    [Samples.reading "Delhi" 0 (Some 45%Q);
     Samples.reading "Delhi" 86400000000001 (Some 220%Q)].

(** The selection the sidebar starts with on [intraday], had Delhi been
    picked: the days of the first and of the last timestamp. *)
Definition intraday_default : Selection :=
  mkSelection ["Delhi"] 0%Z 86400000000000%Z.

(** Two cities with the same mean, reached from different readings. *)
Definition level : list Row :=
  [Samples.reading "Delhi" 1 (Some 90%Q); Samples.reading "Mumbai" 1 (Some 100%Q);
   Samples.reading "Delhi" 2 (Some 110%Q)].

End Samples2.

(** * Properties *)

Module AlertsFacts.
Import Alerts.

Lemma guard_nonempty (s : list num) :
  List.length (dropna s) <> 0%nat -> s <> [].
Proof.
  destruct s; simpl; [lia | discriminate].
Qed.

Lemma le_num_true (x k : Q) : le_num (Some x) k = true <-> (x <= k)%Q.
Proof. apply Qle_bool_iff. Qed.

Lemma le_num_false (x k : Q) : le_num (Some x) k = false <-> (k < x)%Q.
Proof.
  simpl. split; intro H.
  - apply Qnot_le_lt. intro Hle. apply Qle_bool_iff in Hle. congruence.
  - destruct (Qle_bool x k) eqn:E; [|reflexivity].
    apply Qle_bool_iff in E. lra.
Qed.

(** C7.  On a non-null reading the classifier returns Good up to 50,
    Moderate above 50 and up to 100, Poor above 100 and up to 200 and
    Severe above 200; the six boundary readings of the specification
    fall in the stated bands. *)
Theorem classify_bands :
  (forall x : Q,
      ((x <= 50)%Q -> classify (Some x) = Good) /\
      ((50 < x)%Q /\ (x <= 100)%Q -> classify (Some x) = Moderate) /\
      ((100 < x)%Q /\ (x <= 200)%Q -> classify (Some x) = Poor) /\
      ((200 < x)%Q -> classify (Some x) = Severe)) /\
  classify (Some 50%Q) = Good /\
  classify (Some (501 # 10)%Q) = Moderate /\
  classify (Some 100%Q) = Moderate /\
  classify (Some (1001 # 10)%Q) = Poor /\
  classify (Some 200%Q) = Poor /\
  classify (Some (2001 # 10)%Q) = Severe.
Proof.
  split; [|repeat split; reflexivity].
  intro x. unfold classify.
  destruct (le_num (Some x) 50) eqn:E50;
    destruct (le_num (Some x) 100) eqn:E100;
    destruct (le_num (Some x) 200) eqn:E200;
    repeat match goal with
           | H : le_num _ _ = true |- _ => apply le_num_true in H
           | H : le_num _ _ = false |- _ => apply le_num_false in H
           end;
    repeat split; intros; try reflexivity; exfalso; lra.
Qed.

Lemma alert_NoData (v : DataFrame) (city : string) :
  alert_for v city = NoData <->
  in_columns "AQI" v = false \/
  Forall (fun r => AQI r = None) (rows_of_city city (rows v)).
Proof.
unfold alert_for, city_data, in_columns. cbn [rows columns].
destruct (existsb (String.eqb "AQI") (columns v)); cbn [andb].
- assert (H : forall l : list Row,
             List.length (dropna (map AQI l)) = 0%nat <-> Forall (fun r => AQI r = None) l).
  { induction l as [|a l IH]; simpl.
    - split; [constructor | reflexivity].
    - destruct (AQI a) eqn:E; simpl.
      + split; [discriminate | intro F; inversion F; congruence].
      + rewrite IH. split; [now constructor | intro F; now inversion F]. }
  destruct (Nat.eqb _ 0) eqn:E; cbn [negb].
  + apply Nat.eqb_eq in E. split; [intros _; right; now apply H | reflexivity].
  + apply Nat.eqb_neq in E. split; [discriminate|].
    intros [F|F]; [discriminate | now apply H in F].
- split; [now left | reflexivity].
Qed.

(** A selected city without any row in the view is reported as no data. *)
Lemma alert_no_row (v : DataFrame) (city : string) :
  rows_of_city city (rows v) = [] -> alert_for v city = NoData.
Proof.
intro H. apply alert_NoData. right. rewrite H. constructor.
Qed.

(** C2 (the code departs from the claim).  In the view [null_latest]
    Delhi's last row in timestamp order has a null AQI; the claim asks for
    the no-data state, the loop classifies the NaN and shows Severe. *)
Theorem alert_on_null_latest :
  iloc_last (map AQI (rows (city_data Samples.null_latest "Delhi"))) = None /\
  alert_for Samples.null_latest "Delhi" = Banner Severe.
Proof.
split; reflexivity.
Qed.

End AlertsFacts.

Module OrderFacts.
Import Loader.

Lemma date_order_refl r : date_order r r.
Proof. unfold date_order. destruct (Date r); [lia | exact I]. Qed.

Lemma date_order_trans : Relations_1.Transitive date_order.
Proof.
intros a b c. unfold date_order.
destruct (Date a), (Date b), (Date c); intros; try lia; try exact I; try contradiction.
Qed.

End OrderFacts.

Module FilterFacts.
Import FilterEngine Spec Loader Alerts OrderFacts.

Lemma isin_true c l : isin c l = true <-> exists s, c = Some s /\ In s l.
Proof.
destruct c as [c|]; simpl.
- rewrite existsb_exists. split.
  + intros (x & Hin & Heq). apply String.eqb_eq in Heq. subst x. eauto.
  + intros (x & Hx & Hin). inversion Hx; subst x.
    exists c. split; [assumption | apply String.eqb_refl].
- split; [discriminate | intros (x & Hx & _); discriminate].
Qed.

Lemma mask_true sel r : mask sel r = true <-> in_selection sel r.
Proof.
unfold mask, in_selection. rewrite !andb_true_iff, isin_true.
unfold date_ge, date_le.
destruct (Date r) as [t|].
- rewrite !Z.leb_le. split.
  + intros [[Hc H1] H2]. split; [assumption|]. exists t. split; [reflexivity | lia].
  + intros [Hc (t' & Ht & Hr)]. inversion Ht; subst t'. repeat split; (assumption || lia).
- split.
  + intros [[_ H] _]. discriminate.
  + intros [_ (t & Ht & _)]. discriminate.
Qed.

Lemma filter_false_nil {A} (f : A -> bool) (l : list A) :
  (forall x, In x l -> f x = false) -> filter f l = [].
Proof.
induction l as [|a l IH]; simpl; intro H; [reflexivity|].
rewrite (H a (or_introl eq_refl)). apply IH. intros x Hx. apply H. now right.
Qed.

Lemma filter_twice {A} (f : A -> bool) (l : list A) :
  filter f (filter f l) = filter f l.
Proof.
induction l as [|a l IH]; simpl; [reflexivity|].
destruct (f a) eqn:E; simpl; [rewrite E, IH|]; auto.
Qed.

Lemma filter_Subseq {A} (f : A -> bool) (l : list A) : Subseq (filter f l) l.
Proof.
induction l as [|a l IH]; simpl; [constructor|].
destruct (f a); constructor; assumption.
Qed.

Lemma Subseq_In {A} (s l : list A) x : Subseq s l -> In x s -> In x l.
Proof.
induction 1; simpl; intuition.
Qed.

Lemma Subseq_StronglySorted {A} (R : A -> A -> Prop) (s l : list A) :
  Subseq s l -> StronglySorted R l -> StronglySorted R s.
Proof.
induction 1 as [|x s l Hs IH|x s l Hs IH]; intro Hl.
- constructor.
- inversion Hl; subst. auto.
- inversion Hl as [|? ? Hl' Hall]; subst. constructor; [auto|].
  rewrite Forall_forall in *. intros y Hy. apply Hall. eapply Subseq_In; eauto.
Qed.

Lemma StronglySorted_last {A} (R : A -> A -> Prop) (l : list A) :
  (forall x, R x x) -> StronglySorted R l ->
  forall x d, In x l -> R x (last l d).
Proof.
intros Hrefl. induction 1 as [|a l Hs IH Hall]; intros x d Hin; [destruct Hin|].
destruct l as [|b l'].
- destruct Hin as [->|[]]. simpl. apply Hrefl.
- change (last (a :: b :: l') d) with (last (b :: l') d).
  destruct Hin as [->|Hin].
  + rewrite Forall_forall in Hall. apply Hall.
    destruct (@exists_last _ (b :: l')) as (l0 & z & E); [discriminate|].
    rewrite E, last_last. apply in_or_app. right. now left.
  + apply IH. assumption.
Qed.

Lemma Row_eq_dec (a b : Row) : {a = b} + {a <> b}.
Proof.
assert (HQ : forall x y : Q, {x = y} + {x <> y}).
{ decide equality; [apply Pos.eq_dec | apply Z.eq_dec]. }
assert (Hnum : forall x y : num, {x = y} + {x <> y}) by (decide equality).
decide equality.
- apply (list_eq_dec Hnum).
- decide equality. apply Z.eq_dec.
- decide equality. apply string_dec.
Defined.

Lemma count_occ_filter (f : Row -> bool) (l : list Row) (r : Row) :
  f r = true -> count_occ Row_eq_dec (filter f l) r = count_occ Row_eq_dec l r.
Proof.
intro Hr. induction l as [|a l IH]; simpl; [reflexivity|].
destruct (f a) eqn:E; simpl.
- destruct (Row_eq_dec a r); congruence.
- destruct (Row_eq_dec a r); [congruence | assumption].
Qed.

(** C6.  The filtered view holds exactly the rows of the dataset whose
    city is among the chosen cities and whose timestamp lies between the
    two bounds, both inclusive (each as often as the dataset has it);
    with no city chosen, or with no row matching, the result is the empty
    view, a frame like any other. *)
Theorem filter_exact (df : DataFrame) (sel : Selection) :
  (forall r, In r (rows (filtered_df df sel)) <-> In r (rows df) /\ in_selection sel r) /\
  (forall r, in_selection sel r ->
     count_occ Row_eq_dec (rows (filtered_df df sel)) r = count_occ Row_eq_dec (rows df) r) /\
  (selected_cities sel = [] -> rows (filtered_df df sel) = []) /\
  ((forall r, In r (rows df) -> ~ in_selection sel r) -> rows (filtered_df df sel) = []) /\
  columns (filtered_df df sel) = columns df.
Proof.
simpl. split; [|split; [|split; [|split; [|reflexivity]]]].
- intro r. rewrite filter_In, mask_true. reflexivity.
- intros r Hr. apply count_occ_filter. now apply mask_true.
- intro Hnil. apply filter_false_nil. intros r _.
  unfold mask. rewrite Hnil. destruct (City r); reflexivity.
- intro Hnone. apply filter_false_nil. intros r Hr.
  destruct (mask sel r) eqn:E; [|reflexivity].
  apply mask_true in E. now apply Hnone in E.
Qed.

(** C9.  Filtering an already filtered view again with the same
    selection changes nothing. *)
Theorem filter_idempotent (df : DataFrame) (sel : Selection) :
  filtered_df (filtered_df df sel) sel = filtered_df df sel.
Proof.
unfold filtered_df. simpl. now rewrite filter_twice.
Qed.

Lemma iloc_last_map (l : list Row) (d : Row) :
  l <> [] -> iloc_last (map AQI l) = AQI (last l d).
Proof.
unfold iloc_last. induction l as [|a l IH]; intro H; [congruence|].
destruct l as [|b l']; [reflexivity|].
change (last (map AQI (a :: b :: l')) None) with (last (map AQI (b :: l')) None).
change (last (a :: b :: l') d) with (last (b :: l') d).
apply IH. discriminate.
Qed.

(** C10.  On a dataset in ascending timestamp order the filtered view is
    a subsequence of the dataset's rows, hence ascending as well, and so
    is each city's slice of it: the last row of a city's slice, whose AQI
    the alert loop reads, carries the latest timestamp of that city in
    the view. *)
Theorem filter_preserves_order (df : DataFrame) (sel : Selection) :
  Sorted date_order (rows df) ->
  Subseq (rows (filtered_df df sel)) (rows df) /\
  StronglySorted date_order (rows (filtered_df df sel)) /\
  forall city,
    let slice := rows (city_data (filtered_df df sel) city) in
    Subseq slice (rows (filtered_df df sel)) /\
    forall r d, In r slice ->
      date_order r (last slice d) /\
      iloc_last (map AQI slice) = AQI (last slice d).
Proof.
intro Hsorted.
apply (Sorted_StronglySorted date_order_trans) in Hsorted.
assert (Hview : StronglySorted date_order (rows (filtered_df df sel))).
{ eapply Subseq_StronglySorted; [apply filter_Subseq | exact Hsorted]. }
split; [apply filter_Subseq|]. split; [exact Hview|].
intros city slice. split; [apply filter_Subseq|].
intros r d Hin. split.
- apply StronglySorted_last; [apply date_order_refl| |exact Hin].
  eapply Subseq_StronglySorted; [apply filter_Subseq | exact Hview].
- apply iloc_last_map. intro Hnil. rewrite Hnil in Hin. destruct Hin.
Qed.

Lemma filter_preserves_order_witness :
  Sorted date_order (rows Samples.scenario) /\
  StronglySorted date_order (rows (filtered_df Samples.scenario Samples.everything)).
Proof.
assert (H : Sorted date_order (rows Samples.scenario)).
{ repeat constructor; unfold date_order; simpl; lia. }
split; [exact H|].
exact (proj1 (proj2 (filter_preserves_order Samples.scenario Samples.everything H))).
Defined.

End FilterFacts.

Module AggregatorFacts.
Import Aggregator Spec.

(** *** The mean *)

Lemma nansum_non_null (s : list num) : nansum s = fold_right Qplus 0 (non_null s).
Proof.
induction s as [|[x|] s IH]; simpl; congruence.
Qed.

Lemma count_non_null (s : list num) : count s = List.length (non_null s).
Proof.
induction s as [|[x|] s IH]; simpl; congruence.
Qed.

Lemma mean_arithmetic (s : list num) :
  non_null s <> [] -> mean s = Some (arithmetic_mean (non_null s)).
Proof.
intro H. unfold mean, arithmetic_mean.
rewrite nansum_non_null, count_non_null.
destruct (non_null s); [congruence | reflexivity].
Qed.

Lemma mean_NaN (s : list num) : mean s = None <-> non_null s = [].
Proof.
unfold mean. rewrite count_non_null.
destruct (non_null s); simpl; split; congruence.
Qed.

Lemma in_columns_nonempty (name : string) (v : DataFrame) :
  in_columns name v = true -> columns v <> [].
Proof.
unfold in_columns. destruct (columns v); [discriminate | discriminate].
Qed.


(** On a view with some non-null reading the KPI is the arithmetic mean of
    the non-null readings. *)
Lemma overallMean_value (v : DataFrame) :
  in_columns "AQI" v = true ->
  non_null (map AQI (rows v)) <> [] ->
  overallMean v = Some (Some (arithmetic_mean (non_null (map AQI (rows v))))).
Proof.
intros Hc Hn. unfold overallMean, kpi. rewrite Hc.
apply in_columns_nonempty in Hc. unfold empty.
destruct (rows v) eqn:Er; [now simpl in Hn|].
destruct (columns v); [congruence|]. cbn [andb negb].
now rewrite mean_arithmetic.
Qed.

(** C3 (the code departs from the claim).  The view [all_null] has the AQI
    column and one row whose AQI is null; the claim asks for Unavailable,
    the guard of line 95 lets the view through and the KPI is NaN, with no
    worst or best city. *)
Theorem overallMean_all_null :
  non_null (map AQI (rows Samples.all_null)) = [] /\
  overallMean Samples.all_null = Some None /\
  kpi Samples.all_null = Metrics None None None.
Proof.
repeat split; reflexivity.
Qed.

(** *** Group keys *)

Lemma name_lt_trans a b c : name_lt a b -> name_lt b c -> name_lt a c.
Proof.
unfold name_lt. intros H1 H2.
apply String_as_OT.cmp_lt in H1. apply String_as_OT.cmp_lt in H2.
apply String_as_OT.cmp_lt. eapply String_as_OT.lt_trans; eassumption.
Qed.

Lemma compare_Gt_lt a b : String.compare a b = Gt -> name_lt b a.
Proof.
unfold name_lt. intro H. rewrite String.compare_antisym, H. reflexivity.
Qed.

Lemma In_insert_key (c x : string) (ks : list string) :
  In x (insert_key c ks) <-> x = c \/ In x ks.
Proof.
induction ks as [|k ks IH]; simpl.
- intuition.
- destruct (String.compare c k) eqn:E; simpl.
  + apply String.compare_eq_iff in E. subst k. intuition.
  + intuition.
  + rewrite IH. intuition.
Qed.

Lemma insert_key_sorted (c : string) (ks : list string) :
  StronglySorted name_lt ks -> StronglySorted name_lt (insert_key c ks).
Proof.
induction 1 as [|k ks Hs IH Hall]; simpl.
- repeat constructor.
- destruct (String.compare c k) eqn:E.
  + now constructor.
  + constructor; [now constructor|].
    constructor; [exact E|].
    rewrite Forall_forall in *. intros y Hy.
    eapply name_lt_trans; [exact E | auto].
  + constructor; [assumption|].
    rewrite Forall_forall in *. intros y Hy.
    apply In_insert_key in Hy. destruct Hy as [->|Hy]; [|auto].
    now apply compare_Gt_lt.
Qed.

Lemma In_group_keys (view : list Row) (c : string) :
  In c (group_keys view) <-> exists r, In r view /\ City r = Some c.
Proof.
induction view as [|r view IH]; simpl.
- split; [tauto | intros (? & [] & _)].
- destruct (City r) as [k|] eqn:E.
  + rewrite In_insert_key, IH. split.
    * intros [->|(r' & Hin & Hc)]; eauto.
    * intros (r' & [->|Hin] & Hc); [left; congruence | right; eauto].
  + rewrite IH. split.
    * intros (r' & Hin & Hc); eauto.
    * intros (r' & [->|Hin] & Hc); [congruence | eauto].
Qed.

Lemma group_keys_sorted (view : list Row) : StronglySorted name_lt (group_keys view).
Proof.
induction view as [|r view IH]; simpl; [constructor|].
destruct (City r); [now apply insert_key_sorted | assumption].
Qed.

Lemma In_groupby (view : list Row) (c : string) (m : num) :
  In (c, m) (groupby_City_AQI_mean view) <->
  In c (group_keys view) /\ m = city_mean view c.
Proof.
unfold groupby_City_AQI_mean, city_mean. rewrite in_map_iff. split.
- intros (k & Heq & Hin). inversion Heq; subst. auto.
- intros [Hin ->]. eauto.
Qed.

Lemma city_is_true (c : string) (r : Row) : city_is c r = true <-> City r = Some c.
Proof.
unfold city_is. destruct (City r) as [k|].
- rewrite String.eqb_eq. split; congruence.
- split; discriminate.
Qed.

(** A city with a (non-NaN) mean has a row in the view, so it is a key. *)
Lemma city_mean_key (view : list Row) (c : string) (m : Q) :
  city_mean view c = Some m -> In c (group_keys view).
Proof.
unfold city_mean, rows_of_city. intro H.
destruct (filter (city_is c) view) as [|r l] eqn:E; [discriminate|].
assert (Hin : In r (filter (city_is c) view)) by (rewrite E; now left).
apply filter_In in Hin. destruct Hin as [Hin Hc].
apply In_group_keys. exists r. split; [assumption | now apply city_is_true].
Qed.

Lemma city_mean_NaN (view : list Row) (c : string) :
  city_mean view c = None <-> has_reading c view = false.
Proof.
unfold city_mean, has_reading, rows_of_city. rewrite mean_NaN.
induction view as [|r view IH]; simpl; [tauto|].
unfold qualifies at 1. destruct (city_is c r); simpl.
- destruct (AQI r); simpl; [split; discriminate | exact IH].
- exact IH.
Qed.

(** A city with a reading has the arithmetic mean of its non-null
    readings as its mean. *)
Lemma city_mean_value (view : list Row) (c : string) :
  has_reading c view = true ->
  city_mean view c
  = Some (arithmetic_mean (non_null (map AQI (rows_of_city c view)))).
Proof.
intro H. unfold city_mean. apply mean_arithmetic. intro Hnil.
apply mean_NaN in Hnil. apply city_mean_NaN in Hnil. congruence.
Qed.

(** *** The arg-extreme scan *)

Section Scan.

Variable beats : Q -> Q -> bool.
Hypothesis beats_left : forall x y b,
  beats y b = true -> beats x b = false -> beats y x = true.
Hypothesis beats_trans : forall x y b,
  beats x b = true -> beats y x = true -> beats y b = true.

Lemma scan_from_spec (s : list (string * num)) :
  forall best bv,
    (scan_from beats best bv s = best /\
     forall c x, In (c, Some x) s -> beats x bv = false) \/
    (exists pre x post,
        split_at beats s (scan_from beats best bv s) x pre post /\ beats x bv = true).
Proof.
induction s as [|[c [x|]] t IH]; intros best bv; simpl.
- left. split; [reflexivity | intros ? ? []].
- destruct (beats x bv) eqn:E.
  + right. destruct (IH c x) as [[Hr Hall]|(pre & x0 & post & (Hs & Hpre & Hpost) & Hb)].
    * exists [], x, t. rewrite Hr. repeat split; auto; try (intros ? ? []).
    * exists ((c, Some x) :: pre), x0, post. repeat split.
      -- simpl. now rewrite <- Hs.
      -- intros c' x' [Heq|Hin]; [inversion Heq; subst; assumption | eauto].
      -- assumption.
      -- eapply beats_trans; eassumption.
  + destruct (IH best bv) as [[Hr Hall]|(pre & x0 & post & (Hs & Hpre & Hpost) & Hb)].
    * left. split; [assumption|].
      intros c' x' [Heq|Hin]; [inversion Heq; subst; assumption | eauto].
    * right. exists ((c, Some x) :: pre), x0, post. repeat split.
      -- simpl. now rewrite <- Hs.
      -- intros c' x' [Heq|Hin]; [inversion Heq; subst | eauto].
         eapply beats_left; eassumption.
      -- assumption.
      -- assumption.
- destruct (IH best bv) as [[Hr Hall]|(pre & x0 & post & (Hs & Hpre & Hpost) & Hb)].
  + left. split; [assumption|].
    intros c' x' [Heq|Hin]; [discriminate | eauto].
  + right. exists ((c, None) :: pre), x0, post. repeat split.
    * simpl. now rewrite <- Hs.
    * intros c' x' [Heq|Hin]; [discriminate | eauto].
    * assumption.
    * assumption.
Qed.

Lemma first_extreme_spec (s : list (string * num)) (r : string) :
  first_extreme beats s = Some r -> exists pre x post, split_at beats s r x pre post.
Proof.
induction s as [|[c [x|]] t IH]; simpl; intro H.
- discriminate.
- inversion H as [Hr]. clear H.
  destruct (scan_from_spec t c x) as [[Hb Hall]|(pre & x0 & post & (Hs & Hpre & Hpost) & Hb)].
  + exists [], x, t. rewrite Hb. repeat split; auto; try (intros ? ? []).
  + exists ((c, Some x) :: pre), x0, post. repeat split.
    * simpl. now rewrite <- Hs.
    * intros c' x' [Heq|Hin]; [inversion Heq; subst; assumption | eauto].
    * assumption.
- destruct (IH H) as (pre & x0 & post & Hs & Hpre & Hpost).
  exists ((c, None) :: pre), x0, post. repeat split.
  + simpl. now rewrite <- Hs.
  + intros c' x' [Heq|Hin]; [discriminate | eauto].
  + assumption.
Qed.

Lemma first_extreme_total (s : list (string * num)) (c : string) (x : Q) :
  In (c, Some x) s -> exists r, first_extreme beats s = Some r.
Proof.
induction s as [|[k [y|]] t IH]; simpl; intro H.
- destruct H.
- eauto.
- destruct H as [H|H]; [discriminate | auto].
Qed.

Hypothesis beats_asym : forall x y, beats x y = true -> beats y x = false.

Lemma sorted_after (l1 l2 : list string) (r : string) :
  StronglySorted name_lt (l1 ++ r :: l2) -> Forall (name_lt r) l2.
Proof.
induction l1 as [|a l1 IH]; simpl; intro H; inversion H; subst; auto.
Qed.

(** The label picked from the per-city means: its mean is extreme, and
    any other city with a mean it does not beat has a later name. *)
Lemma extreme_of_groupby (view : list Row) (c : string) :
  first_extreme beats (groupby_City_AQI_mean view) = Some c ->
  exists m, city_mean view c = Some m /\
    forall c' m', city_mean view c' = Some m' ->
      beats m' m = false /\ (beats m m' = false -> c' = c \/ name_lt c c').
Proof.
intro H. apply first_extreme_spec in H.
destruct H as (pre & m & post & Hs & Hpre & Hpost).
assert (Hc : In (c, Some m) (groupby_City_AQI_mean view)).
{ rewrite Hs. apply in_or_app. right. now left. }
apply In_groupby in Hc. destruct Hc as [_ Hm].
exists m. split; [now symmetry|].
intros c' m' Hm'.
assert (Hin : In (c', Some m') (groupby_City_AQI_mean view)).
{ apply In_groupby. split; [eapply city_mean_key; eassumption | now symmetry]. }
rewrite Hs in Hin. apply in_app_or in Hin. destruct Hin as [Hin|[Heq|Hin]].
- specialize (Hpre _ _ Hin). split; [now apply beats_asym | congruence].
- inversion Heq; subst. split; [|auto].
  destruct (beats m' m') eqn:E; [|reflexivity].
  pose proof (beats_asym _ _ E). congruence.
- split; [eauto|]. intros _. right.
  pose proof (group_keys_sorted view) as Hsorted.
  assert (Hk : group_keys view = map fst pre ++ c :: map fst post).
  { transitivity (map fst (groupby_City_AQI_mean view)).
    - unfold groupby_City_AQI_mean. rewrite map_map. simpl. now rewrite map_id.
    - rewrite Hs, map_app. reflexivity. }
  rewrite Hk in Hsorted. apply sorted_after in Hsorted.
  rewrite Forall_forall in Hsorted. apply Hsorted.
  change c' with (fst (c', Some m')). now apply in_map.
Qed.

End Scan.

Lemma gt_num_true x b : gt_num x b = true <-> b < x.
Proof.
unfold gt_num. rewrite negb_true_iff. split; intro H.
- apply Qnot_le_lt. intro Hle. apply Qle_bool_iff in Hle. congruence.
- destruct (Qle_bool x b) eqn:E; [|reflexivity]. apply Qle_bool_iff in E. lra.
Qed.

Lemma gt_num_false x b : gt_num x b = false <-> x <= b.
Proof.
unfold gt_num. rewrite negb_false_iff. apply Qle_bool_iff.
Qed.

Lemma lt_num_true x b : lt_num x b = true <-> x < b.
Proof. apply gt_num_true. Qed.

Lemma lt_num_false x b : lt_num x b = false <-> b <= x.
Proof. apply gt_num_false. Qed.

Ltac order_facts :=
  repeat match goal with
         | H : gt_num _ _ = true |- _ => apply gt_num_true in H
         | H : gt_num _ _ = false |- _ => apply gt_num_false in H
         | H : lt_num _ _ = true |- _ => apply lt_num_true in H
         | H : lt_num _ _ = false |- _ => apply lt_num_false in H
         | |- gt_num _ _ = true => apply gt_num_true
         | |- gt_num _ _ = false => apply gt_num_false
         | |- lt_num _ _ = true => apply lt_num_true
         | |- lt_num _ _ = false => apply lt_num_false
         end.

Lemma worst_city_spec (view : list Row) (c : string) :
  worst_city view = Some c ->
  exists m, city_mean view c = Some m /\
    forall c' m', city_mean view c' = Some m' ->
      m' <= m /\ (m' == m -> c' = c \/ name_lt c c').
Proof.
intro H. apply (extreme_of_groupby gt_num) in H.
- destruct H as (m & Hm & Hall). exists m. split; [assumption|].
  intros c' m' Hm'. destruct (Hall _ _ Hm') as [H1 H2]. order_facts.
  split; [assumption|]. intro Heq. apply H2. order_facts. lra.
- intros; order_facts; lra.
- intros; order_facts; lra.
- intros; order_facts; lra.
Qed.

Lemma best_city_spec (view : list Row) (c : string) :
  best_city view = Some c ->
  exists m, city_mean view c = Some m /\
    forall c' m', city_mean view c' = Some m' ->
      m <= m' /\ (m' == m -> c' = c \/ name_lt c c').
Proof.
intro H. apply (extreme_of_groupby lt_num) in H.
- destruct H as (m & Hm & Hall). exists m. split; [assumption|].
  intros c' m' Hm'. destruct (Hall _ _ Hm') as [H1 H2]. order_facts.
  split; [assumption|]. intro Heq. apply H2. order_facts. lra.
- intros; order_facts; lra.
- intros; order_facts; lra.
- intros; order_facts; lra.
Qed.

Lemma extreme_total (view : list Row) (c : string) (m : Q) :
  city_mean view c = Some m ->
  exists w b, worst_city view = Some w /\ best_city view = Some b.
Proof.
intro H.
assert (Hin : In (c, Some m) (groupby_City_AQI_mean view)).
{ apply In_groupby. split; [eapply city_mean_key; eassumption | now symmetry]. }
destruct (first_extreme_total gt_num _ _ _ Hin) as (w & Hw).
destruct (first_extreme_total lt_num _ _ _ Hin) as (b & Hb).
exists w, b. split; assumption.
Qed.

(** Every entry of the per-city series is the city's mean, and the cities
    listed are those with a row in the view. *)
Lemma perCityMeans_groupby (v : DataFrame) :
  in_columns "AQI" v = true -> perCityMeans v = groupby_City_AQI_mean (rows v).
Proof.
intro H. unfold perCityMeans, aqi_avg. now rewrite H.
Qed.

(** C4 (counterexample).  In the view [one_silent] Delhi has one row and
    no non-null reading, and the per-city series still lists Delhi (with a
    NaN mean). *)
Lemma silent_city_listed : ~ entries_are_cities_with_reading.
Proof.
intro H.
destruct (H Samples.one_silent eq_refl "Delhi") as [Hlisted _].
assert (Hr : has_reading "Delhi" (rows Samples.one_silent) = true).
{ apply Hlisted. exists None. left. reflexivity. }
vm_compute in Hr. discriminate.
Qed.

(** C4 (as amended).  With the AQI column present, the per-city series
    has an entry exactly for each city that has a row in the view, the
    entry being that city's mean; the entry is NaN exactly for a city
    without any non-null reading, and such a city is never reported as
    worst or best. *)
Theorem perCityMeans_entries (v : DataFrame) :
  in_columns "AQI" v = true ->
  (forall c, (exists m, In (c, m) (perCityMeans v)) <->
             (exists r, In r (rows v) /\ City r = Some c)) /\
  (forall c m, In (c, m) (perCityMeans v) -> m = city_mean (rows v) c) /\
  (forall c, In (c, None) (perCityMeans v) <->
             (exists r, In r (rows v) /\ City r = Some c) /\
             has_reading c (rows v) = false) /\
  (forall c, has_reading c (rows v) = false ->
             worst_city (rows v) <> Some c /\ best_city (rows v) <> Some c).
Proof.
intro Hcol. rewrite (perCityMeans_groupby v Hcol).
split; [|split; [|split]].
- intro c. rewrite <- In_group_keys. split.
  + intros (m & Hin). now apply In_groupby in Hin.
  + intro Hk. exists (city_mean (rows v) c). now apply In_groupby.
- intros c m Hin. now apply In_groupby in Hin.
- intro c. rewrite In_groupby, In_group_keys, <- city_mean_NaN.
  split; intros [H1 H2]; split; auto.
- intros c Hsilent. apply city_mean_NaN in Hsilent. split; intro H.
  + apply worst_city_spec in H. destruct H as (m & Hm & _). congruence.
  + apply best_city_spec in H. destruct H as (m & Hm & _). congruence.
Qed.

Lemma perCityMeans_entries_witness :
  in_columns "AQI" Samples.one_silent = true /\
  In ("Delhi", None) (perCityMeans Samples.one_silent) /\
  worst_city (rows Samples.one_silent) <> Some "Delhi".
Proof.
split; [reflexivity|].
destruct (perCityMeans_entries Samples.one_silent eq_refl) as (_ & _ & Hnan & Hnever).
split.
- apply Hnan. split; [|reflexivity].
  exists (Samples.reading "Delhi" 1 None). split; [left|]; reflexivity.
- apply Hnever. reflexivity.
Defined.

End AggregatorFacts.

Module LoaderFacts.
Import Loader Spec OrderFacts FilterEngine.

(** *** Cleaning *)

Lemma clean_rows to_datetime sort_values csv df :
  clean to_datetime sort_values csv = inr df ->
  rows df = sort_values (retained to_datetime csv).
Proof.
unfold clean, retained, date_source.
destruct (has_column "Datetime" (csv_columns csv));
  [|destruct (has_column "Date" (csv_columns csv))];
  destruct (has_column "City" (csv_columns csv));
  intro H; inversion H; reflexivity.
Qed.

Lemma load_Loaded to_datetime sort_values src df :
  load to_datetime sort_values src = Loaded df ->
  exists csv, read_csv src = inr csv /\
              rows df = sort_values (retained to_datetime csv).
Proof.
unfold load. destruct (read_csv src) as [e|csv]; [discriminate|].
destruct (clean to_datetime sort_values csv) as [e|df'] eqn:E; [discriminate|].
intro H. inversion H; subst. exists csv. split; [reflexivity|].
eapply clean_rows; eassumption.
Qed.

Lemma retained_clean to_datetime csv :
  Forall (fun r => City r <> None /\ Date r <> None) (retained to_datetime csv).
Proof.
apply Forall_forall. intros r Hr. unfold retained in Hr.
apply filter_In in Hr. destruct Hr as [_ Hk].
unfold keep in Hk. apply andb_true_iff in Hk.
destruct (City r), (Date r); simpl in Hk; intuition congruence.
Qed.

Lemma sorted_timestamps (l : list Row) :
  Forall (fun r => City r <> None /\ Date r <> None) l ->
  StronglySorted date_order l -> StronglySorted timestamp_le l.
Proof.
intros Hall. induction 1 as [|a l Hs IH Hfa]; [constructor|].
inversion Hall as [|? ? [_ Ha] Hl]; subst.
constructor; [auto|].
rewrite Forall_forall in *. intros b Hb.
specialize (Hfa b Hb). destruct (Hl b Hb) as [_ Hdb].
unfold date_order in Hfa. unfold timestamp_le.
destruct (Date a), (Date b); congruence || assumption.
Qed.

End LoaderFacts.

(** ** The sort of line 63 *)

Module NpysortFacts.
Import Frame Loader Spec OrderFacts LoaderFacts Npysort.

Lemma less_false a b : less a b = false -> date_order b a.
Proof.
unfold less, date_order. destruct (Date a), (Date b); try rewrite Z.ltb_ge;
  intros; try lia; try exact I; discriminate.
Qed.

Lemma less_true a b : less a b = true -> date_order a b.
Proof.
unfold less, date_order. destruct (Date a), (Date b); try rewrite Z.ltb_lt;
  intros; try lia; try exact I; discriminate.
Qed.

Lemma less_other_time a b t :
  less a b = true -> Date a = Some t -> Date b <> Some t.
Proof.
unfold less. intros H Ha. rewrite Ha in H.
destruct (Date b) as [y|]; [|discriminate].
apply Z.ltb_lt in H. intro E. inversion E. lia.
Qed.

(** *** Lists in order *)

Lemma sorted_app (R : Row -> Row -> Prop) l1 l2 :
  StronglySorted R l1 -> StronglySorted R l2 ->
  (forall x y, In x l1 -> In y l2 -> R x y) ->
  StronglySorted R (l1 ++ l2).
Proof.
induction 1 as [|a l1 Hs IH Ha]; intros H2 Hx; simpl; [assumption|].
constructor.
- apply IH; [assumption|]. intros x y Hx1 Hy. apply Hx; [now right | assumption].
- apply Forall_app. split; [assumption|].
  apply Forall_forall. intros y Hy. apply Hx; [now left | assumption].
Qed.

Lemma sorted_rev (R : Row -> Row -> Prop) l :
  StronglySorted (fun u v => R v u) l -> StronglySorted R (rev l).
Proof.
induction 1 as [|a l Hs IH Ha]; simpl; [constructor|].
apply sorted_app; [assumption | repeat constructor |].
intros x y Hx [<-|[]]. apply in_rev in Hx.
rewrite Forall_forall in Ha. now apply Ha.
Qed.

(** *** [span] *)

Lemma span_spec p l a b :
  span p l = (a, b) ->
  l = a ++ b /\ Forall (fun x => p x = true) a /\
  match b with [] => True | x :: _ => p x = false end.
Proof.
revert a b. induction l as [|x t IH]; simpl; intros a b H.
- inversion H; subst. repeat split. constructor.
- destruct (p x) eqn:E.
  + destruct (span p t) as [a' b'] eqn:Es. inversion H; subst.
    destruct (IH _ _ eq_refl) as (-> & Ha & Hb).
    repeat split; [now constructor | assumption].
  + inversion H; subst. repeat split; [constructor | assumption].
Qed.

(** *** Insertion sort *)

Lemma sift_perm x acc : Permutation (sift x acc) (x :: acc).
Proof.
induction acc as [|e rest IH]; simpl; [reflexivity|].
destruct (less x e); [|reflexivity].
rewrite IH. apply perm_swap.
Qed.

Lemma sift_sorted x acc :
  StronglySorted (fun u v => date_order v u) acc ->
  StronglySorted (fun u v => date_order v u) (sift x acc).
Proof.
induction 1 as [|e rest Hs IH He]; simpl; [repeat constructor|].
destruct (less x e) eqn:E.
- constructor; [assumption|].
  eapply Permutation_Forall; [symmetry; apply sift_perm|].
  constructor; [now apply less_true | assumption].
- apply less_false in E. constructor; [now constructor|].
  constructor; [assumption|].
  rewrite Forall_forall in *. intros y Hy.
  eapply date_order_trans; [apply He; exact Hy | exact E].
Qed.

Lemma sift_at_time x acc t :
  at_time t (sift x acc) = at_time t (x :: acc).
Proof.
induction acc as [|e rest IH]; [reflexivity|].
simpl sift. destruct (less x e) eqn:E; [|reflexivity].
unfold at_time in *. simpl in *. rewrite IH.
destruct (Date x) as [dx|] eqn:Ex; [|reflexivity].
destruct (Z.eqb_spec dx t) as [->|Hx]; [|reflexivity].
destruct (Date e) as [de|] eqn:Ee; [|reflexivity].
destruct (Z.eqb_spec de t) as [->|He]; [|reflexivity].
exfalso. eapply less_other_time; eauto.
Qed.

Lemma insertion_fold seg acc :
  Permutation (fold_left (fun a x => sift x a) seg acc) (seg ++ acc) /\
  (StronglySorted (fun u v => date_order v u) acc ->
   StronglySorted (fun u v => date_order v u)
     (fold_left (fun a x => sift x a) seg acc)) /\
  (forall t, at_time t (fold_left (fun a x => sift x a) seg acc)
             = rev (at_time t seg) ++ at_time t acc).
Proof.
revert acc. induction seg as [|x seg IH]; intro acc; simpl.
- repeat split; auto.
- destruct (IH (sift x acc)) as (Hp & Hs & Ht). repeat split.
  + rewrite Hp, sift_perm. symmetry. apply Permutation_middle.
  + intro H. apply Hs. now apply sift_sorted.
  + intro t. rewrite Ht, sift_at_time. unfold at_time. simpl.
    destruct (match Date x with Some d => (d =? t)%Z | None => false end); simpl;
      [rewrite <- app_assoc|]; reflexivity.
Qed.

Lemma insertion_sort_perm seg : Permutation (insertion_sort seg) seg.
Proof.
unfold insertion_sort. rewrite <- Permutation_rev.
destruct (insertion_fold seg []) as (Hp & _). rewrite Hp. now rewrite app_nil_r.
Qed.

Lemma insertion_sort_sorted seg : StronglySorted date_order (insertion_sort seg).
Proof.
unfold insertion_sort. apply sorted_rev.
destruct (insertion_fold seg []) as (_ & Hs & _). apply Hs. constructor.
Qed.



(** *** Partition *)

Ltac perm3 :=
  first
    [ reflexivity
    | apply perm_swap
    | apply perm_skip; apply perm_swap
    | eapply perm_trans; [apply perm_swap|]; apply perm_skip; apply perm_swap
    | eapply perm_trans; [apply perm_skip; apply perm_swap|]; apply perm_swap
    | eapply perm_trans; [apply perm_swap|];
      eapply perm_trans; [apply perm_skip; apply perm_swap|]; apply perm_swap ].

Lemma median3_spec a b c a' b' c' :
  median3 a b c = (a', b', c') ->
  Permutation [a'; b'; c'] [a; b; c] /\ date_order a' b' /\ date_order b' c'.
Proof.
unfold median3.
destruct (less b a) eqn:E1;
  [apply less_true in E1 | apply less_false in E1];
  (destruct (less c _) eqn:E2;
   [apply less_true in E2 | apply less_false in E2]);
  (destruct (less _ _) eqn:E3;
   [apply less_true in E3 | apply less_false in E3]);
  intro H; inversion H; subst; (split; [perm3|]); split;
  solve [ assumption | eapply date_order_trans; eassumption ].
Qed.

Lemma rotate_perm l : Permutation (rotate l) l.
Proof.
destruct l as [|r others]; simpl; [reflexivity|].
symmetry. apply Permutation_cons_append.
Qed.

Lemma hoare_spec pivot fuel : forall L W R l r,
  (List.length W <= fuel)%nat ->
  hoare fuel pivot L W R = (l, r) ->
  Permutation (l ++ r) (L ++ W ++ R) /\
  (Forall (fun e => date_order e pivot) L -> Forall (fun e => date_order e pivot) l) /\
  (Forall (date_order pivot) R -> Forall (date_order pivot) r).
Proof.
induction fuel as [|fuel IH]; intros L W R l r Hlen H.
- destruct W; [|simpl in Hlen; lia]. simpl in H. inversion H; subst.
  repeat split.
  + rewrite app_nil_r. simpl. apply Permutation_app_head, rotate_perm.
  + now rewrite app_nil_r.
  + intro HR. eapply Permutation_Forall; [symmetry; apply rotate_perm | assumption].
- simpl in H.
  destruct (span (fun e => less e pivot) W) as [small rest] eqn:Es.
  apply span_spec in Es. destruct Es as (EW & Hsmall & Hrest).
  assert (Hsmall' : Forall (fun e => date_order e pivot) small).
  { eapply Forall_impl; [|exact Hsmall]. intros e He. now apply less_true. }
  destruct rest as [|x above].
  + inversion H; subst.
      repeat split.
    * rewrite !app_nil_r, <- app_assoc. do 2 apply Permutation_app_head. apply rotate_perm.
    * intro HL. apply Forall_app. now split.
    * intro HR. eapply Permutation_Forall; [symmetry; apply rotate_perm | assumption].
  + apply less_false in Hrest.
    destruct (span (fun e => less pivot e) (rev above)) as [large_rev rest_rev] eqn:Es2.
    apply span_spec in Es2. destruct Es2 as (Ea & Hlarge & Hy).
    assert (Eabove : above = rev rest_rev ++ rev large_rev).
    { rewrite <- rev_app_distr, <- Ea. symmetry. apply rev_involutive. }
    assert (Hlarge' : Forall (date_order pivot) (rev large_rev)).
    { apply Forall_rev. eapply Forall_impl; [|exact Hlarge].
      intros e He. now apply less_true. }
    destruct rest_rev as [|y inner_rev].
    * inversion H; subst. simpl. repeat split.
      -- rewrite <- !app_assoc. do 2 apply Permutation_app_head.
         simpl. rewrite app_assoc. symmetry. apply Permutation_cons_append.
      -- intro HL. apply Forall_app. now split.
      -- intro HR. simpl. rewrite !Forall_app. repeat split; auto.
    * apply less_false in Hy.
      apply IH in H.
      2:{ subst W above. simpl in Hlen.
          rewrite !length_app in Hlen. simpl in Hlen.
          rewrite !length_app, !length_rev in Hlen. simpl in Hlen.
          rewrite length_rev. lia. }
      destruct H as (Hp & HL' & HR'). repeat split.
      -- rewrite Hp. subst W above. simpl. rewrite <- !app_assoc. simpl.
         do 2 apply Permutation_app_head.
         rewrite <- app_assoc. simpl. rewrite <- !Permutation_middle. apply perm_swap.
      -- intro HL. apply HL'. rewrite !Forall_app. repeat split; auto.
      -- intro HR. apply HR'. constructor; [assumption|].
         apply Forall_app. now split.
Qed.

Lemma partition_spec seg l b r :
  partition seg = Some (l, b, r) ->
  Permutation (l ++ b :: r) seg /\
  Forall (fun e => date_order e b) l /\ Forall (date_order b) r.
Proof.
unfold partition. destruct seg as [|a rest]; [discriminate|]. cbv zeta.
remember (firstn (Nat.div2 (List.length rest) - 1) rest) as before eqn:Eb.
destruct (skipn (Nat.div2 (List.length rest) - 1) rest) as [|b0 after] eqn:Esk;
  [discriminate|].
destruct (rev after) as [|c0 middle_rev] eqn:Erev; [discriminate|].
assert (Erest : rest = before ++ b0 :: rev middle_rev ++ [c0]).
{ rewrite <- (firstn_skipn (Nat.div2 (List.length rest) - 1) rest) at 1.
  rewrite Esk, <- Eb. do 2 f_equal.
  rewrite <- (rev_involutive after), Erev. reflexivity. }
clear Eb Esk Erev after. subst rest.
destruct (median3 a b0 c0) as [[a' b'] c'] eqn:Em.
apply median3_spec in Em. destruct Em as (Hp3 & Hab & Hbc).
assert (Hgen : forall between l0 r0,
          hoare (List.length between) b' [a'] between [] = (l0, r0) ->
          Permutation (l0 ++ b' :: r0 ++ [c']) (a :: between ++ [b0; c0]) /\
          Forall (fun e => date_order e b') l0 /\ Forall (date_order b') (r0 ++ [c'])).
{ intros between l0 r0 Hh. apply hoare_spec in Hh; [|lia].
  destruct Hh as (Hp & HL & HR). repeat split.
  - rewrite <- Permutation_middle, app_assoc, <- Permutation_cons_append, Hp.
    rewrite (Permutation_app_comm between [b0; c0]). simpl. rewrite app_nil_r.
    apply (Permutation_app_tail between (l := [b'; c'; a']) (l' := [a; b0; c0])).
    rewrite <- Hp3. perm3.
  - apply HL. repeat constructor. assumption.
  - apply Forall_app. split; [apply HR; constructor | repeat constructor; assumption]. }
assert (Hfin : forall between,
          Permutation between (before ++ rev middle_rev) ->
          Permutation (a :: between ++ [b0; c0])
                      (a :: before ++ b0 :: rev middle_rev ++ [c0])).
{ intros between Hb. rewrite Hb. apply perm_skip.
  rewrite <- app_assoc. apply Permutation_app_head.
  rewrite <- Permutation_middle. reflexivity. }
destruct middle_rev as [|z inner_rev].
- destruct (hoare (List.length before) b' [a'] before []) as [l0 r0] eqn:Eh.
  intro H. inversion H; subst l0 b' r. clear H.
  destruct (Hgen _ _ _ Eh) as (Hp & Hl & Hr). repeat split; try assumption.
- destruct (hoare (List.length (before ++ [z] ++ rev inner_rev)) b' [a']
              (before ++ [z] ++ rev inner_rev) []) as [l0 r0] eqn:Eh.
  intro H. inversion H; subst l0 b' r. clear H.
  destruct (Hgen _ _ _ Eh) as (Hp & Hl & Hr). repeat split; try assumption.
  rewrite Hp. apply Hfin. simpl.
  apply Permutation_app_head. apply Permutation_cons_append.
Qed.

End NpysortFacts.

Module HeapsortFacts.
Import Frame Loader OrderFacts Npysort HeapInvariants NpysortFacts.
Local Open Scope nat_scope.

(** *** Cells *)

Lemma store_eq a k x : store a k x k = x.
Proof. unfold store. now rewrite Nat.eqb_refl. Qed.

Lemma store_neq a k x i : i <> k -> store a k x i = a i.
Proof. unfold store. intro H. apply Nat.eqb_neq in H. now rewrite H. Qed.

Lemma transpose_involutive i j k : transpose i j (transpose i j k) = k.
Proof.
unfold transpose.
destruct (Nat.eqb_spec k j) as [->|Hkj].
- destruct (Nat.eqb_spec i j); [congruence|]. now rewrite Nat.eqb_refl.
- destruct (Nat.eqb_spec k i) as [->|Hki].
  + now rewrite Nat.eqb_refl.
  + destruct (Nat.eqb_spec k j); [contradiction|].
    destruct (Nat.eqb_spec k i); [contradiction | reflexivity].
Qed.

Lemma transpose_range i j k N :
  1 <= i <= N -> 1 <= j <= N -> 1 <= k <= N -> 1 <= transpose i j k <= N.
Proof.
unfold transpose. intros.
destruct (k =? j); [assumption|]. destruct (k =? i); assumption.
Qed.

Lemma transpose_perm i j N :
  1 <= i <= N -> 1 <= j <= N ->
  Permutation (map (transpose i j) (seq 1 N)) (seq 1 N).
Proof.
intros Hi Hj. apply NoDup_Permutation.
- apply (NoDup_map_inv (transpose i j)).
  rewrite map_map, (map_ext _ (fun k => k)), map_id; [apply seq_NoDup|].
  intro k. apply transpose_involutive.
- apply seq_NoDup.
- intro x. rewrite in_map_iff. split.
  + intros (y & <- & Hy). apply in_seq in Hy. apply in_seq.
    pose proof (transpose_range i j y N Hi Hj). lia.
  + intro Hx. exists (transpose i j x). split; [apply transpose_involutive|].
    apply in_seq in Hx. apply in_seq.
    pose proof (transpose_range i j x N Hi Hj). lia.
Qed.

Lemma swap_perm (a : Cells) i j N :
  1 <= i <= N -> 1 <= j <= N ->
  Permutation (map (store (store a i (a j)) j (a i)) (seq 1 N)) (map a (seq 1 N)).
Proof.
intros Hi Hj.
rewrite (map_ext _ (fun k => a (transpose i j k))).
- rewrite <- map_map. apply Permutation_map. now apply transpose_perm.
- intro k. unfold store, transpose.
  destruct (k =? j); [reflexivity|]. destruct (k =? i); reflexivity.
Qed.

(** *** Sifting down *)

Lemma larger_child (a : Cells) n i :
  2 * i <= n ->
  forall j, j = (if (2 * i <? n) && less (a (2 * i)) (a (2 * i + 1))
                 then 2 * i + 1 else 2 * i) ->
  child j i /\ j <= n /\
  forall c, child c i -> c <= n -> date_order (a c) (a j).
Proof.
intros Hn j ->. unfold child.
destruct (Nat.ltb_spec (2 * i) n) as [Hlt|Hge]; cbn [andb].
- destruct (less (a (2 * i)) (a (2 * i + 1))) eqn:E.
  + apply less_true in E. repeat split; [now right | lia |].
    intros c [->| ->] _; [assumption | apply date_order_refl].
  + apply less_false in E. repeat split; [now left | lia |].
    intros c [->| ->] _; [apply date_order_refl | assumption].
- repeat split; [now left | lia |].
  intros c [->| ->] Hc; [apply date_order_refl | lia].
Qed.

Lemma sift_down_perm fuel : forall tmp n i a N,
  1 <= i -> i <= n -> n <= N ->
  Permutation (map (sift_down fuel tmp n i a) (seq 1 N))
              (map (store a i tmp) (seq 1 N)).
Proof.
induction fuel as [|fuel IH]; intros tmp n i a N Hi Hin HnN; cbn [sift_down];
  [reflexivity|].
destruct (Nat.leb_spec (2 * i) n) as [Hc|Hc]; [|reflexivity].
remember (if (2 * i <? n) && less (a (2 * i)) (a (2 * i + 1))
          then 2 * i + 1 else 2 * i) as j eqn:Ej.
destruct (larger_child a n i Hc j Ej) as (Hj & Hjn & _).
destruct (less tmp (a j)); [|reflexivity].
assert (Hij : j <> i) by (unfold child in Hj; lia).
rewrite IH by (unfold child in Hj; lia).
rewrite <- (swap_perm (store a i tmp) i j N) by (unfold child in Hj; lia).
rewrite store_eq, (store_neq _ _ _ j Hij).
apply Permutation_refl'. apply map_ext. intro k. unfold store.
destruct (k =? j); [reflexivity|]. destruct (k =? i); reflexivity.
Qed.

Lemma sift_down_frame fuel : forall tmp n i a k,
  1 <= i -> i <= n -> k < i \/ n < k ->
  sift_down fuel tmp n i a k = a k.
Proof.
induction fuel as [|fuel IH]; intros tmp n i a k Hi Hin Hk; cbn [sift_down];
  [apply store_neq; lia|].
destruct (Nat.leb_spec (2 * i) n) as [Hc|Hc]; [|apply store_neq; lia].
remember (if (2 * i <? n) && less (a (2 * i)) (a (2 * i + 1))
          then 2 * i + 1 else 2 * i) as j eqn:Ej.
destruct (larger_child a n i Hc j Ej) as (Hj & Hjn & _).
destruct (less tmp (a j)); [|apply store_neq; lia].
unfold child in Hj.
rewrite IH by lia. apply store_neq. lia.
Qed.

Lemma store_heap tmp n l i (a : Cells) :
  1 <= l ->
  (forall k c, l <= k -> c <= n -> child c k -> k <> i -> c <> i ->
               date_order (a c) (a k)) ->
  (forall p, l <= p -> child i p -> date_order tmp (a p)) ->
  (forall c, child c i -> c <= n -> date_order (a c) tmp) ->
  heap_in (store a i tmp) l n.
Proof.
intros Hl H2 H4 H5 k c Hk Hc Hkc.
assert (Hne : c <> k) by (unfold child in Hkc; lia).
destruct (Nat.eq_dec k i) as [->|Hki].
- rewrite store_eq, store_neq by assumption. now apply H5.
- destruct (Nat.eq_dec c i) as [->|Hci].
  + rewrite store_eq, store_neq by assumption. now apply H4.
  + rewrite !store_neq by assumption. now apply H2.
Qed.

Lemma sift_down_heap fuel : forall tmp n l i a,
  1 <= l -> l <= i -> i <= n -> n < i + fuel ->
  (forall k c, l <= k -> c <= n -> child c k -> k <> i -> c <> i ->
               date_order (a c) (a k)) ->
  (forall p c, l <= p -> child i p -> child c i -> c <= n ->
               date_order (a c) (a p)) ->
  (forall p, l <= p -> child i p -> date_order tmp (a p)) ->
  heap_in (sift_down fuel tmp n i a) l n.
Proof.
induction fuel as [|fuel IH]; intros tmp n l i a Hl Hli Hin Hfuel H2 H3 H4;
  cbn [sift_down].
- apply store_heap; try assumption. unfold child. intros; lia.
- destruct (Nat.leb_spec (2 * i) n) as [Hc|Hc].
  2:{ apply store_heap; try assumption. unfold child. intros; lia. }
  remember (if (2 * i <? n) && less (a (2 * i)) (a (2 * i + 1))
            then 2 * i + 1 else 2 * i) as j eqn:Ej.
  destruct (larger_child a n i Hc j Ej) as (Hj & Hjn & Hmax).
  destruct (less tmp (a j)) eqn:Et.
  + apply less_true in Et.
    assert (Hij : j <> i) by (unfold child in Hj; lia).
    apply IH; try (unfold child in Hj; lia).
    * intros k c Hk Hc' Hkc Hkj Hcj.
      assert (Hne : c <> k) by (unfold child in Hkc; lia).
      destruct (Nat.eq_dec k i) as [->|Hki].
      -- rewrite store_eq, store_neq by assumption. now apply Hmax.
      -- destruct (Nat.eq_dec c i) as [->|Hci].
         ++ rewrite store_eq, store_neq by assumption. now apply (H3 k j).
         ++ rewrite !store_neq by assumption. now apply H2.
    * intros p c Hp Hjp Hcj Hc'.
      assert (p = i) by (unfold child in *; lia). subst p.
      rewrite store_eq, store_neq by (unfold child in *; lia).
      apply H2; try assumption; unfold child in *; lia.
    * intros p Hp Hjp.
      assert (p = i) by (unfold child in *; lia). subst p.
      now rewrite store_eq.
  + apply less_false in Et. apply store_heap; try assumption.
    intros c Hci Hc'. eapply date_order_trans; [apply Hmax; eassumption | exact Et].
Qed.

(** *** Building the heap *)

Lemma store_same (a : Cells) l k : store a l (a l) k = a k.
Proof. unfold store. destruct (Nat.eqb_spec k l); congruence. Qed.

Lemma heapify_from n m : forall a,
  m <= n ->
  heap_in a (m + 1) n ->
  heap_in (fold_left (fun a l => sift_down n (a l) n l a) (rev (seq 1 m)) a) 1 n.
Proof.
induction m as [|m IH]; intros a Hm Hheap; [exact Hheap|].
rewrite seq_S, rev_app_distr. simpl rev. simpl app. cbn [fold_left].
apply IH; [lia|].
replace (m + 1) with (S m) by lia. replace (1 + m) with (S m) by lia.
apply sift_down_heap; try lia.
- intros k c Hk Hc Hkc Hki _. apply Hheap; [lia | assumption | assumption].
- unfold child. intros; lia.
- unfold child. intros; lia.
Qed.

Lemma heapify_perm_from n N m : forall a,
  m <= n -> n <= N ->
  Permutation
    (map (fold_left (fun a l => sift_down n (a l) n l a) (rev (seq 1 m)) a) (seq 1 N))
    (map a (seq 1 N)).
Proof.
induction m as [|m IH]; intros a Hm HN; [reflexivity|].
rewrite seq_S, rev_app_distr. simpl rev. simpl app. cbn [fold_left].
rewrite IH by lia. rewrite sift_down_perm by lia.
apply Permutation_refl'. apply map_ext. intro k. apply store_same.
Qed.

Lemma heapify_heap n a : heap_in (heapify n a) 1 n.
Proof.
unfold heapify. apply heapify_from.
- rewrite Nat.div2_div. apply Nat.Div0.div_le_upper_bound. lia.
- unfold heap_in, child. intros k c Hk Hc Hkc. rewrite Nat.div2_div in Hk.
  pose proof (Nat.div_mod_eq n 2). pose proof (Nat.mod_upper_bound n 2). lia.
Qed.

Lemma heapify_perm n a :
  Permutation (map (heapify n a) (seq 1 n)) (map a (seq 1 n)).
Proof.
unfold heapify. apply heapify_perm_from; [|lia].
rewrite Nat.div2_div. apply Nat.Div0.div_le_upper_bound. lia.
Qed.

(** *** Taking the rows out of the heap *)

Lemma heap_root (a : Cells) n :
  heap_in a 1 n -> forall k, 1 <= k -> k <= n -> date_order (a k) (a 1).
Proof.
intros Hheap k. induction k as [k IH] using lt_wf_ind. intros Hk Hn.
destruct (Nat.eq_dec k 1) as [->|Hk1]; [apply date_order_refl|].
pose proof (Nat.div_mod_eq k 2). pose proof (Nat.mod_upper_bound k 2).
eapply date_order_trans.
- apply (Hheap (k / 2) k); [lia | lia | unfold child; lia].
- apply IH; lia.
Qed.

Lemma extract_sorted_above a n N :
  2 <= n -> n <= N -> sorted_above a n N -> sorted_above (extract a n) (n - 1) N.
Proof.
intros Hn HN (Hheap & Hsuf & Hcross). unfold extract.
set (a1 := store a n (a 1)).
assert (Hframe : forall k, n - 1 < k -> sift_down n (a n) (n - 1) 1 a1 k = a1 k).
{ intros k Hk. apply sift_down_frame; lia. }
assert (Hmem : forall k, 1 <= k -> k <= n - 1 ->
          exists k0, 1 <= k0 /\ k0 <= n /\ sift_down n (a n) (n - 1) 1 a1 k = a k0).
{ intros k Hk1 Hk2.
  assert (Hin : In (sift_down n (a n) (n - 1) 1 a1 k)
                   (map (sift_down n (a n) (n - 1) 1 a1) (seq 1 (n - 1)))).
  { apply in_map, in_seq. lia. }
  eapply Permutation_in in Hin; [|apply sift_down_perm; lia].
  apply in_map_iff in Hin. destruct Hin as (k0 & E & Hk0). apply in_seq in Hk0.
  rewrite <- E. destruct (Nat.eq_dec k0 1) as [->|H1].
  - exists n. rewrite store_eq. repeat split; lia.
  - exists k0. rewrite store_neq by assumption. unfold a1.
    rewrite store_neq by lia. repeat split; lia. }
assert (Hn1 : a1 n = a 1) by apply store_eq.
assert (Hgt : forall k, n < k -> a1 k = a k).
{ intros k Hk. apply store_neq. lia. }
repeat split.
- apply sift_down_heap; try lia.
  + intros k c Hk Hc Hkc _ _. unfold a1.
    rewrite !store_neq by (unfold child in Hkc; lia).
    apply Hheap; [assumption | lia | assumption].
  + unfold child. intros; lia.
  + unfold child. intros; lia.
- intros k k' Hk Hkk Hk'. rewrite !Hframe by lia.
  destruct (Nat.eq_dec k n) as [->|Hkn].
  + rewrite Hn1. destruct (Nat.eq_dec k' n) as [->|Hk'n].
    * rewrite Hn1. apply date_order_refl.
    * rewrite Hgt by lia. apply Hcross; lia.
  + rewrite !Hgt by lia. apply Hsuf; lia.
- intros k k' Hk1 Hk2 Hk' Hk'N. rewrite (Hframe k') by lia.
  destruct (Hmem k Hk1 Hk2) as (k0 & H1 & H2 & ->).
  destruct (Nat.eq_dec k' n) as [->|Hk'n].
  + rewrite Hn1. now apply (heap_root a n).
  + rewrite Hgt by lia. apply Hcross; lia.
Qed.

Lemma extract_perm (a : Cells) n N :
  2 <= n -> n <= N ->
  Permutation (map (extract a n) (seq 1 N)) (map a (seq 1 N)).
Proof.
intros Hn HN. unfold extract.
rewrite sift_down_perm by lia. apply swap_perm; lia.
Qed.

Lemma extract_all N m : forall a,
  m + 1 <= N -> sorted_above a (m + 1) N ->
  sorted_above (fold_left extract (rev (seq 2 m)) a) 1 N /\
  Permutation (map (fold_left extract (rev (seq 2 m)) a) (seq 1 N)) (map a (seq 1 N)).
Proof.
induction m as [|m IH]; intros a Hm Hinv; [split; [exact Hinv | reflexivity]|].
rewrite seq_S, rev_app_distr. simpl rev. simpl app. cbn [fold_left].
destruct (IH (extract a (2 + m))) as (Hs & Hp).
- lia.
- replace (m + 1) with (2 + m - 1) by lia. apply extract_sorted_above; try lia.
  now replace (2 + m) with (S m + 1) by lia.
- split; [exact Hs|]. rewrite Hp. apply extract_perm; lia.
Qed.

Lemma heapsort_cells_spec n a :
  1 <= n ->
  sorted_above (heapsort_cells n a) 1 n /\
  Permutation (map (heapsort_cells n a) (seq 1 n)) (map a (seq 1 n)).
Proof.
intro Hn. unfold heapsort_cells.
destruct (extract_all n (n - 1) (heapify n a)) as (Hs & Hp).
- lia.
- replace (n - 1 + 1) with n by lia. repeat split.
  + apply heapify_heap.
  + intros; lia.
  + intros; lia.
- split; [exact Hs|]. rewrite Hp. apply heapify_perm.
Qed.

(** *** The segment as cells and back *)

Lemma cells_of_segment (seg : list Row) d :
  map (fun k => nth (k - 1) seg d) (seq 1 (List.length seg)) = seg.
Proof.
apply (nth_ext _ _ d d).
- now rewrite length_map, length_seq.
- intros k Hk. rewrite length_map, length_seq in Hk.
  rewrite (nth_indep _ _ (nth (0 - 1) seg d)) by (now rewrite length_map, length_seq).
  rewrite (map_nth (fun k => nth (k - 1) seg d)), seq_nth by assumption.
  f_equal. lia.
Qed.

Lemma cells_sorted (a : Cells) len : forall start,
  (forall k k', start <= k -> k <= k' -> k' < start + len -> date_order (a k) (a k')) ->
  StronglySorted date_order (map a (seq start len)).
Proof.
induction len as [|len IH]; intros start H; simpl; constructor.
- apply IH. intros k k' Hk Hkk Hk'. apply H; lia.
- apply Forall_forall. intros x Hx. apply in_map_iff in Hx.
  destruct Hx as (k & <- & Hk). apply in_seq in Hk. apply H; lia.
Qed.

Lemma aheapsort_cons d rest :
  aheapsort (d :: rest)
  = map (heapsort_cells (List.length (d :: rest))
           (fun k => nth (k - 1) (d :: rest) d))
        (seq 1 (List.length (d :: rest))).
Proof. reflexivity. Qed.

Lemma aheapsort_perm seg : Permutation (aheapsort seg) seg.
Proof.
destruct seg as [|d rest]; [reflexivity|]. rewrite aheapsort_cons.
assert (Hlen : 1 <= List.length (d :: rest)) by (simpl; lia).
remember (d :: rest) as seg eqn:E. clear E.
destruct (heapsort_cells_spec (List.length seg) (fun k => nth (k - 1) seg d) Hlen)
  as (_ & Hp).
rewrite Hp. apply Permutation_refl'. apply cells_of_segment.
Qed.

Lemma aheapsort_sorted seg : StronglySorted date_order (aheapsort seg).
Proof.
destruct seg as [|d rest]; [constructor|]. rewrite aheapsort_cons.
assert (Hlen : 1 <= List.length (d :: rest)) by (simpl; lia).
remember (d :: rest) as seg eqn:E. clear E.
destruct (heapsort_cells_spec (List.length seg) (fun k => nth (k - 1) seg d) Hlen)
  as ((Hheap & Hsuf & Hcross) & _).
apply cells_sorted. intros k k' Hk Hkk Hk'.
destruct (Nat.eq_dec k k') as [->|Hne]; [apply date_order_refl|].
destruct (Nat.eq_dec k 1) as [->|Hk1]; [apply Hcross | apply Hsuf]; lia.
Qed.

Lemma aheapsort_ok : sort_values_spec aheapsort.
Proof. split; [apply aheapsort_perm | apply aheapsort_sorted]. Qed.

End HeapsortFacts.

Module IntrosortFacts.
Import Frame Loader Spec OrderFacts LoaderFacts Npysort NpysortFacts HeapsortFacts.

Lemma sorted_around l p r l' r' :
  Forall (fun e => date_order e p) l -> Forall (date_order p) r ->
  Permutation l' l -> Permutation r' r ->
  StronglySorted date_order l' -> StronglySorted date_order r' ->
  StronglySorted date_order (l' ++ p :: r').
Proof.
intros Hl Hr Pl Pr Sl Sr.
assert (Hr' : Forall (date_order p) r').
{ eapply Permutation_Forall; [symmetry; exact Pr | exact Hr]. }
assert (Hl' : Forall (fun e => date_order e p) l').
{ eapply Permutation_Forall; [symmetry; exact Pl | exact Hl]. }
apply sorted_app; [assumption | now constructor |].
rewrite Forall_forall in Hl', Hr'.
intros x y Hx [<-|Hy]; [now apply Hl'|].
eapply date_order_trans; [apply Hl'; exact Hx | apply Hr'; exact Hy].
Qed.

Lemma quicksort_from_spec fuel : forall top cdepth seg,
  Permutation (quicksort_from fuel top cdepth seg) seg /\
  StronglySorted date_order (quicksort_from fuel top cdepth seg).
Proof.
induction fuel as [|fuel IH]; intros top cdepth seg; cbn [quicksort_from];
  (destruct (top && (cdepth <? 0)%Z);
   [split; [apply aheapsort_perm | apply aheapsort_sorted]|]);
  (destruct (SMALL_QUICKSORT <? List.length seg - 1)%nat;
   [|split; [apply insertion_sort_perm | apply insertion_sort_sorted]]).
- split; [apply insertion_sort_perm | apply insertion_sort_sorted].
- destruct (partition seg) as [[[l p] r]|] eqn:Ep;
    [|split; [apply insertion_sort_perm | apply insertion_sort_sorted]].
  apply partition_spec in Ep. destruct Ep as (Hp & Hl & Hr).
  destruct (List.length l <? List.length r)%nat.
  + destruct (IH false (cdepth - 1)%Z l) as (Pl & Sl).
    destruct (IH true (cdepth - 1)%Z r) as (Pr & Sr). split.
    * rewrite <- Hp. apply Permutation_app; [assumption | now apply perm_skip].
    * eapply sorted_around; eassumption.
  + destruct (IH true (cdepth - 1)%Z l) as (Pl & Sl).
    destruct (IH false (cdepth - 1)%Z r) as (Pr & Sr). split.
    * rewrite <- Hp. apply Permutation_app; [assumption | now apply perm_skip].
    * eapply sorted_around; eassumption.
Qed.

Lemma filter_split (p : Row -> bool) l :
  Permutation (filter p l ++ filter (fun r => negb (p r)) l) l.
Proof.
induction l as [|x l IH]; simpl; [reflexivity|].
destruct (p x); simpl; [now apply perm_skip|].
rewrite <- Permutation_middle. now apply perm_skip.
Qed.

Lemma np_sort_values_perm l : Permutation (sort_values l) l.
Proof.
unfold sort_values, aquicksort.
rewrite (proj1 (quicksort_from_spec _ _ _ _)). apply filter_split.
Qed.

Lemma np_sort_values_sorted l : StronglySorted date_order (sort_values l).
Proof.
unfold sort_values, aquicksort. apply sorted_app.
- apply quicksort_from_spec.
- induction l as [|x l IH]; simpl; [constructor|].
  destruct (Date x) eqn:E; simpl; [assumption|].
  constructor; [assumption|].
  apply Forall_forall. intros y Hy. apply filter_In in Hy. destruct Hy as [_ Hy].
  unfold date_order. destruct (Date y); [discriminate|]. now destruct (Date x).
- intros x y _ Hy. apply filter_In in Hy. destruct Hy as [_ Hy].
  unfold date_order. destruct (Date y); [discriminate|]. now destruct (Date x).
Qed.

Lemma np_sort_values_ok : sort_values_spec sort_values.
Proof. split; [apply np_sort_values_perm | apply np_sort_values_sorted]. Qed.






End IntrosortFacts.

Module LoadOrder.
Import Frame Loader Spec Stability OrderFacts FilterFacts LoaderFacts.
Import NpysortFacts IntrosortFacts.







End LoadOrder.

(** ** The end-to-end scenario of the specification *)

Module ScenarioFacts.
Import FilterEngine Aggregator Alerts Samples.

Example scenario_kpi :
  exists m,
    kpi (filtered_df scenario everything) = Metrics (Some m) (Some "Delhi") (Some "Mumbai") /\
    m == 115.
Proof.
eexists. split; reflexivity.
Qed.

Example scenario_alerts :
  alerts (filtered_df scenario everything) (selected_cities everything)
  = [("Delhi", Banner Severe); ("Mumbai", Banner Moderate)].
Proof.
reflexivity.
Qed.

End ScenarioFacts.

(** * Further properties of the script *)

(** ** Alert loop *)

Module AlertCases.
Import Alerts Derived AlertsFacts.

(** X1.  A selected city gets the no-data line exactly when the view has
    no AQI column or none of the city's rows has an AQI; in every other
    case the banner is the band of the AQI cell of the city's last row,
    whatever that cell holds. *)
Theorem alert_cases (v : DataFrame) (city : string) :
  (alert_for v city = NoData <->
   in_columns "AQI" v = false \/
   Forall (fun r => AQI r = None) (rows_of_city city (rows v))) /\
  (forall l r,
      rows_of_city city (rows v) = l ++ [r] ->
      alert_for v city <> NoData ->
      alert_for v city = Banner (classify (AQI r))).
Proof.
split; [apply alert_NoData|].
intros l r Hslice Hshown.
assert (E : alert_for v city
            = Banner (classify (iloc_last (map AQI (rows_of_city city (rows v)))))).
{ unfold alert_for in *. cbn [city_data rows] in *.
  destruct (in_columns "AQI" _ && _); [reflexivity | congruence]. }
rewrite E, Hslice, map_app. cbn [map]. unfold iloc_last. now rewrite last_last.
Qed.

(** X2.  The classifier is monotone: a larger reading never gets a milder
    band. *)
Theorem classify_monotone (x y : Q) :
  x <= y ->
  (severity (classify (Some x)) <= severity (classify (Some y)))%nat.
Proof.
intro Hxy. unfold classify.
destruct (le_num (Some x) 50) eqn:X50;
  destruct (le_num (Some x) 100) eqn:X100;
  destruct (le_num (Some x) 200) eqn:X200;
  destruct (le_num (Some y) 50) eqn:Y50;
  destruct (le_num (Some y) 100) eqn:Y100;
  destruct (le_num (Some y) 200) eqn:Y200;
  cbn [severity]; try lia;
  repeat match goal with
         | H : le_num _ _ = true |- _ => apply le_num_true in H
         | H : le_num _ _ = false |- _ => apply le_num_false in H
         end;
  exfalso; lra.
Qed.

Lemma classify_monotone_witness :
  45 <= 220 /\
  (severity (classify (Some 45%Q)) <= severity (classify (Some 220%Q)))%nat.
Proof.
assert (H : 45 <= 220) by (unfold Qle; simpl; lia).
split; [exact H | exact (classify_monotone 45 220 H)].
Defined.

End AlertCases.

(** ** Filter mask *)

Module FilterAlgebra.
Import FilterEngine Aggregator Spec Derived FilterFacts AggregatorFacts.

Lemma mask_meet (s1 s2 : Selection) (r : Row) :
  mask (meet s1 s2) r = mask s1 r && mask s2 r.
Proof.
apply eq_iff_eq_true. rewrite andb_true_iff. unfold mask.
rewrite !andb_true_iff, !isin_true. cbn [meet selected_cities date_start date_end].
unfold date_ge, date_le. destruct (Date r) as [t|].
- rewrite !Z.leb_le. split.
  + intros [[(c & Hc & Hin) Hs] He]. apply filter_In in Hin. destruct Hin as [Hin1 Hin2].
    apply isin_true in Hin2. destruct Hin2 as (c' & Hc' & Hin2). inversion Hc'; subst c'.
    repeat split; eauto; lia.
  + intros [[[(c & Hc & Hin1) Hs1] He1] [[(c' & Hc' & Hin2) Hs2] He2]].
    assert (c' = c) by congruence. subst c'.
    repeat split; try lia. exists c. split; [assumption|].
    apply filter_In. split; [assumption|]. apply isin_true. eauto.
- split; [intros [[_ H] _] | intros [[[_ H] _] _]]; discriminate.
Qed.

Lemma filter_both {A} (f g : A -> bool) (l : list A) :
  filter g (filter f l) = filter (fun x => f x && g x) l.
Proof.
induction l as [|a l IH]; simpl; [reflexivity|].
destruct (f a); simpl; [destruct (g a)|]; simpl; now rewrite IH.
Qed.

Lemma filter_implied {A} (f g : A -> bool) (l : list A) :
  (forall x, f x = true -> g x = true) -> filter f (filter g l) = filter f l.
Proof.
intro H. rewrite filter_both. apply filter_ext. intro x.
destruct (f x) eqn:E, (g x) eqn:E'; try reflexivity.
apply H in E. congruence.
Qed.

(** X3.  Filtering a filtered view with a second selection is filtering
    the dataset once with the cities common to both and the overlap of
    the two date ranges; the order of the two filters does not matter. *)
Theorem filter_compose (df : DataFrame) (s1 s2 : Selection) :
  filtered_df (filtered_df df s1) s2 = filtered_df df (meet s1 s2) /\
  filtered_df (filtered_df df s1) s2 = filtered_df (filtered_df df s2) s1.
Proof.
unfold filtered_df. cbn [rows columns]. split; f_equal.
- rewrite filter_both. apply filter_ext. intro r. now rewrite mask_meet.
- rewrite !filter_both. apply filter_ext. intro r. apply andb_comm.
Qed.

(** X4.  Narrowing the selection narrows the view: with fewer cities and
    a date range inside the old one, the new view is a subsequence of the
    old view. *)
Theorem filter_monotone (df : DataFrame) (s1 s2 : Selection) :
  (forall c, In c (selected_cities s1) -> In c (selected_cities s2)) ->
  (date_start s2 <= date_start s1)%Z ->
  (date_end s1 <= date_end s2)%Z ->
  Subseq (rows (filtered_df df s1)) (rows (filtered_df df s2)).
Proof.
intros Hc Hs He. cbn [filtered_df rows].
rewrite <- (filter_implied (mask s1) (mask s2)); [apply filter_Subseq|].
intros r Hr. apply mask_true in Hr. apply mask_true.
destruct Hr as [(c & Hcity & Hin) (t & Ht & Hrange)].
split; [exists c; auto | exists t; split; [assumption | lia]].
Qed.

Lemma filter_monotone_witness :
  Subseq (rows (filtered_df Samples.scenario (mkSelection ["Delhi"] 2%Z 2%Z)))
         (rows (filtered_df Samples.scenario Samples.everything)).
Proof.
apply filter_monotone; simpl; [intros c [<-|[]]; now left | lia | lia].
Defined.

(** X5.  A date range whose end lies before its start selects nothing. *)
Theorem filter_inverted_range (df : DataFrame) (sel : Selection) :
  (date_end sel < date_start sel)%Z -> rows (filtered_df df sel) = [].
Proof.
intro H. cbn [filtered_df rows]. apply filter_false_nil. intros r _.
destruct (mask sel r) eqn:E; [|reflexivity].
apply mask_true in E. destruct E as [_ (t & _ & Hr)]. lia.
Qed.

Lemma filter_inverted_range_witness :
  rows (filtered_df Samples.scenario (mkSelection ["Delhi"; "Mumbai"] 2%Z 1%Z)) = [].
Proof.
apply filter_inverted_range. simpl. lia.
Defined.

(** X6.  Whatever the frame holds, a filtered view has no row with a
    missing city or a missing timestamp. *)
Theorem filter_drops_incomplete (df : DataFrame) (sel : Selection) :
  Forall (fun r => City r <> None /\ Date r <> None) (rows (filtered_df df sel)).
Proof.
apply Forall_forall. intros r Hr. cbn [filtered_df rows] in Hr.
apply filter_In in Hr. destruct Hr as [_ Hm]. apply mask_true in Hm.
destruct Hm as [(c & Hc & _) (t & Ht & _)]. split; congruence.
Qed.

Lemma view_city_selected (df : DataFrame) (sel : Selection) (c : string) :
  In c (group_keys (rows (filtered_df df sel))) -> In c (selected_cities sel).
Proof.
intro H. apply In_group_keys in H. destruct H as (r & Hr & Hc).
cbn [filtered_df rows] in Hr. apply filter_In in Hr. destruct Hr as [_ Hm].
apply mask_true in Hm. destruct Hm as [(c' & Hc' & Hin) _]. congruence.
Qed.

(** X7.  The per-city series of a filtered view lists selected cities
    only, and the worst and the best city are among the selected cities. *)
Theorem view_cities_selected (df : DataFrame) (sel : Selection) :
  (forall c m, In (c, m) (perCityMeans (filtered_df df sel)) ->
               In c (selected_cities sel)) /\
  (forall c, worst_city (rows (filtered_df df sel)) = Some c ->
             In c (selected_cities sel)) /\
  (forall c, best_city (rows (filtered_df df sel)) = Some c ->
             In c (selected_cities sel)).
Proof.
split; [|split].
- intros c m. unfold perCityMeans, aqi_avg.
  destruct (in_columns "AQI" (filtered_df df sel)); [|intros []].
  intro H. apply In_groupby in H. apply (view_city_selected df). tauto.
- intros c H. apply worst_city_spec in H. destruct H as (m & Hm & _).
  apply (view_city_selected df). eapply city_mean_key; eassumption.
- intros c H. apply best_city_spec in H. destruct H as (m & Hm & _).
  apply (view_city_selected df). eapply city_mean_key; eassumption.
Qed.

End FilterAlgebra.

(** ** Cleaning and the page *)

Module CleanFacts.
Import Loader FilterEngine Aggregator Alerts Spec Derived.
Import OrderFacts FilterFacts LoaderFacts.

Lemma assign_Date_ext (rs1 rs2 : list CsvRow) :
  map without_Date rs1 = map without_Date rs2 ->
  forall dates, assign_Date rs1 dates = assign_Date rs2 dates.
Proof.
revert rs2. induction rs1 as [|a rs1 IH]; intros [|b rs2] H dates;
  try discriminate; [reflexivity|].
simpl in H. inversion H as [[Hc Hd Ha Hp Hrest]].
simpl. rewrite Hc, Ha, Hp. f_equal. now apply IH.
Qed.

(** X9.  When the file has a Datetime column the text of its Date column
    plays no part: two files that differ only in their Date cells clean
    to the same frame. *)
Theorem clean_prefers_Datetime to_datetime sort_values
  (cols : list string) (rows1 rows2 : list CsvRow) :
  has_column "Datetime" cols = true ->
  map without_Date rows1 = map without_Date rows2 ->
  clean to_datetime sort_values (mkCsvFrame cols rows1)
  = clean to_datetime sort_values (mkCsvFrame cols rows2).
Proof.
intros Hdt Hsame. unfold clean. cbn [csv_columns csv_rows]. rewrite Hdt.
destruct (has_column "City" cols); [|reflexivity].
unfold with_Date.
assert (Hd : map csv_Datetime rows1 = map csv_Datetime rows2).
{ apply (f_equal (map (fun p => snd (fst (fst p))))) in Hsame.
  rewrite !map_map in Hsame. exact Hsame. }
now rewrite Hd, (assign_Date_ext _ _ Hsame).
Qed.

Lemma clean_prefers_Datetime_witness :
  clean Samples.sample_to_datetime Npysort.sort_values
    (mkCsvFrame ["City"; "Datetime"; "Date"]
       [mkCsvRow (Some "Delhi") (Some "2020-01-01 05:00") (Some "1999") (Some 45) []])
  = clean Samples.sample_to_datetime Npysort.sort_values
    (mkCsvFrame ["City"; "Datetime"; "Date"]
       [mkCsvRow (Some "Delhi") (Some "2020-01-01 05:00") None (Some 45) []]).
Proof.
apply clean_prefers_Datetime; reflexivity.
Defined.

(** X11.  A cleaned frame keeps every column of the file and has the City
    and Date columns; in particular it has an AQI column exactly when the
    file has one. *)
Theorem clean_columns to_datetime sort_values (csv : CsvFrame) (df : DataFrame) :
  clean to_datetime sort_values csv = inr df ->
  in_columns "City" df = true /\
  in_columns "Date" df = true /\
  (forall name, has_column name (csv_columns csv) = true -> in_columns name df = true) /\
  in_columns "AQI" df = has_column "AQI" (csv_columns csv).
Proof.
assert (Hin : forall name cols rs,
           in_columns name (mkFrame cols rs) = has_column name cols) by reflexivity.
assert (Happ : forall name, has_column name (csv_columns csv ++ ["Date"])
                            = has_column name (csv_columns csv) || String.eqb name "Date").
{ intro name. unfold has_column. rewrite existsb_app. cbn [existsb]. now rewrite orb_false_r. }
unfold clean.
destruct (has_column "Datetime" (csv_columns csv)) eqn:Hdt;
  destruct (has_column "Date" (csv_columns csv)) eqn:Hd;
  destruct (has_column "City" (csv_columns csv)) eqn:Hc;
  intro H; try discriminate; injection H as <-; rewrite !Hin.
- repeat split; auto.
- rewrite !Happ, Hc, Hd. repeat split.
  + intros name Hn. rewrite Hin, Happ, Hn. reflexivity.
  + now rewrite orb_false_r.
- repeat split; auto.
Qed.

Lemma clean_columns_witness :
  in_columns "Date"
    (mkFrame ["City"; "Datetime"; "Date"]
       (Npysort.sort_values
          (filter keep (with_Date Samples.sample_to_datetime csv_Datetime [])))) = true.
Proof.
exact (proj1 (proj2 (clean_columns Samples.sample_to_datetime Npysort.sort_values
                       (mkCsvFrame ["City"; "Datetime"] []) _ eq_refl))).
Defined.

End CleanFacts.

Module PageFacts.
Import Loader FilterEngine Aggregator Alerts Spec Derived.
Import OrderFacts FilterFacts LoaderFacts AlertsFacts.

Lemma sorted_last_latest {A} (R : A -> A -> Prop) (l : list A) :
  (forall x, In x l -> R x x) -> StronglySorted R l ->
  forall x d, In x l -> R x (last l d).
Proof.
intros Hrefl Hs. induction Hs as [|a l Hs IH Hall]; intros x d Hin; [destruct Hin|].
destruct l as [|b l'].
- destruct Hin as [->|[]]. apply Hrefl. now left.
- change (last (a :: b :: l') d) with (last (b :: l') d).
  destruct Hin as [->|Hin].
  + rewrite Forall_forall in Hall. apply Hall.
    destruct (@exists_last _ (b :: l')) as (l0 & z & E); [discriminate|].
    rewrite E, last_last. apply in_or_app. right. now left.
  + apply IH; [|assumption]. intros y Hy. apply Hrefl. now right.
Qed.

Lemma loaded_rows_sorted to_datetime sort_values src df :
  sort_values_spec sort_values ->
  load to_datetime sort_values src = Loaded df ->
  StronglySorted timestamp_le (rows df).
Proof.
intros [Hperm Hasc] Hload.
destruct (load_Loaded _ _ _ _ Hload) as (csv & _ & Hrows).
apply sorted_timestamps; rewrite Hrows; [|apply Hasc].
eapply Permutation_Forall; [symmetry; apply Hperm | apply retained_clean].
Qed.

(** X12.  Load followed by filter: whatever selection is applied to a
    loaded dataset, the view is in non-decreasing timestamp order, and in
    each city's slice of the view no row is later than the last one, the
    row the alert loop reads. *)
Theorem loaded_view_sorted to_datetime sort_values src df :
  sort_values_spec sort_values ->
  load to_datetime sort_values src = Loaded df ->
  forall sel,
    StronglySorted timestamp_le (rows (filtered_df df sel)) /\
    forall city r d,
      In r (rows (city_data (filtered_df df sel) city)) ->
      timestamp_le r (last (rows (city_data (filtered_df df sel) city)) d).
Proof.
intros Hspec Hload sel.
pose proof (loaded_rows_sorted _ _ _ _ Hspec Hload) as Hsorted.
assert (Hview : StronglySorted timestamp_le (rows (filtered_df df sel))).
{ eapply Subseq_StronglySorted; [apply filter_Subseq | exact Hsorted]. }
split; [exact Hview|].
intros city r d Hin. apply sorted_last_latest; [| |exact Hin].
- intros x Hx. cbn [city_data rows] in Hx. unfold rows_of_city in Hx.
  apply filter_In in Hx. destruct Hx as [Hx _].
  cbn [filtered_df rows] in Hx. apply filter_In in Hx. destruct Hx as [_ Hm].
  apply mask_true in Hm. destruct Hm as [_ (t & Ht & _)].
  unfold timestamp_le. rewrite Ht. lia.
- eapply Subseq_StronglySorted; [apply filter_Subseq | exact Hview].
Qed.

Lemma loaded_view_sorted_witness :
  StronglySorted timestamp_le
    (rows (filtered_df
             (mkFrame Samples.cols
                [Samples.reading "Delhi" 10 (Some 45); Samples.reading "Mumbai" 10 (Some 80)])
             (mkSelection ["Delhi"] 0%Z 20%Z))).
Proof.
exact (proj1 (loaded_view_sorted Samples.sample_to_datetime Npysort.sort_values
                Samples.same_day _ IntrosortFacts.np_sort_values_ok eq_refl
                (mkSelection ["Delhi"] 0%Z 20%Z))).
Defined.

End PageFacts.

(** ** Sidebar *)

Module SidebarFacts.
Import FilterEngine Aggregator Sidebar Spec Derived.
Import FilterFacts AggregatorFacts.

Lemma name_lt_irrefl a : ~ name_lt a a.
Proof.
unfold name_lt. intro H. pose proof (String.compare_antisym a a) as E.
rewrite H in E. discriminate.
Qed.

Lemma sorted_names_unique (l1 l2 : list string) :
  StronglySorted name_lt l1 -> StronglySorted name_lt l2 ->
  (forall x, In x l1 <-> In x l2) -> l1 = l2.
Proof.
intro H1. revert l2. induction H1 as [|a l1 Hs1 IH Ha]; intros l2 H2 Hsame.
- destruct l2 as [|b l2]; [reflexivity|].
  destruct (proj2 (Hsame b) (or_introl eq_refl)).
- inversion H2 as [|b l2' Hs2 Hb]; subst.
  + destruct (proj1 (Hsame a) (or_introl eq_refl)).
  + rewrite Forall_forall in Ha, Hb.
    assert (a = b).
    { destruct (proj1 (Hsame a) (or_introl eq_refl)) as [E|Hin]; [now symmetry|].
      destruct (proj2 (Hsame b) (or_introl eq_refl)) as [E|Hin']; [assumption|].
      exfalso. apply (name_lt_irrefl a).
      eapply name_lt_trans; [apply Ha, Hin' | apply Hb, Hin]. }
    subst b. f_equal. apply IH; [assumption|].
    intro x. split; intro Hx.
    * destruct (proj1 (Hsame x) (or_intror Hx)) as [E|Hin]; [|assumption].
      subst x. exfalso. apply (name_lt_irrefl a). now apply Ha.
    * destruct (proj2 (Hsame x) (or_intror Hx)) as [E|Hin]; [|assumption].
      subst x. exfalso. apply (name_lt_irrefl a). now apply Hb.
Qed.

Lemma In_insort (c x : string) (l : list string) :
  In x (insort c l) <-> x = c \/ In x l.
Proof.
induction l as [|k ks IH]; simpl; [intuition|].
destruct (String.compare c k); simpl; try rewrite IH; intuition.
Qed.

Lemma insort_sorted (c : string) (l : list string) :
  ~ In c l -> StronglySorted name_lt l -> StronglySorted name_lt (insort c l).
Proof.
intros Hnot Hs. induction Hs as [|k ks Hs IH Hall]; simpl; [repeat constructor|].
destruct (String.compare c k) eqn:E.
- apply String.compare_eq_iff in E. subst k. exfalso. apply Hnot. now left.
- constructor; [now constructor|]. constructor; [exact E|].
  rewrite Forall_forall in *. intros y Hy.
  eapply name_lt_trans; [exact E | auto].
- constructor.
  + apply IH. intro Hin. apply Hnot. now right.
  + rewrite Forall_forall in *. intros y Hy. apply In_insort in Hy.
    destruct Hy as [->|Hy]; [now apply compare_Gt_lt | auto].
Qed.

Lemma In_sorted (x : string) (l : list string) : In x (sorted l) <-> In x l.
Proof.
induction l as [|a l IH]; simpl; [tauto|]. rewrite In_insort, IH. intuition.
Qed.

Lemma sorted_strict (l : list string) :
  NoDup l -> StronglySorted name_lt (sorted l).
Proof.
induction 1 as [|a l Hnot Hnd IH]; simpl; [constructor|].
apply insort_sorted; [|assumption]. now rewrite In_sorted.
Qed.

Lemma In_unique (x : string) (l : list string) : In x (unique l) <-> In x l.
Proof.
induction l as [|a l IH]; simpl; [tauto|].
rewrite filter_In, IH, negb_true_iff, String.eqb_neq.
destruct (string_dec x a) as [->|Hne]; intuition.
Qed.

Lemma unique_NoDup (l : list string) : NoDup (unique l).
Proof.
induction l as [|a l IH]; simpl; constructor.
- rewrite filter_In, negb_true_iff, String.eqb_neq. tauto.
- now apply NoDup_filter.
Qed.

Lemma In_City_column (view : list Row) (c : string) :
  In c (City_column view) <-> exists r, In r view /\ City r = Some c.
Proof.
induction view as [|r view IH]; simpl.
- split; [tauto | intros (? & [] & _)].
- destruct (City r) as [k|] eqn:E; simpl; rewrite IH; split.
  + intros [->|(r' & Hin & Hc)]; eauto.
  + intros (r' & [->|Hin] & Hc); [left; congruence | right; eauto].
  + intros (r' & Hin & Hc); eauto.
  + intros (r' & [->|Hin] & Hc); [congruence | eauto].
Qed.

(** X15.  The options of the city picker are the cities that have a row
    in the dataset, each once, in strictly ascending order; and whatever
    is selected, every city of the per-city series of the view is one of
    these options. *)
Theorem cities_options (df : DataFrame) :
  StronglySorted name_lt (cities df) /\
  NoDup (cities df) /\
  (forall c, In c (cities df) <-> exists r, In r (rows df) /\ City r = Some c) /\
  (forall sel c m,
      In (c, m) (perCityMeans (filtered_df df sel)) -> In c (cities df)).
Proof.
assert (Hs : StronglySorted name_lt (cities df)).
{ apply sorted_strict, unique_NoDup. }
assert (Hin : forall c, In c (cities df) <-> exists r, In r (rows df) /\ City r = Some c).
{ intro c. unfold cities. now rewrite In_sorted, In_unique, In_City_column. }
split; [exact Hs|]. split; [|split; [exact Hin|]].
- clear Hin. induction Hs as [|a l Hs IH Hall]; constructor; [|assumption].
  intro Hin. rewrite Forall_forall in Hall. apply (name_lt_irrefl a). auto.
- intros sel c m. unfold perCityMeans, aqi_avg.
  destruct (in_columns "AQI" (filtered_df df sel)); [|intros []].
  intro H. apply In_groupby in H. destruct H as [Hk _].
  apply In_group_keys in Hk. destruct Hk as (r & Hr & Hc).
  cbn [filtered_df rows] in Hr. apply filter_In in Hr.
  apply Hin. exists r. tauto.
Qed.

End SidebarFacts.

Module DateRangeFacts.
Import FilterEngine Sidebar Spec Derived FilterFacts.

Section Pick.

Variable choose : Z -> Z -> Z.
Variable R : Z -> Z -> Prop.
Hypothesis choose_one : forall x y, choose x y = x \/ choose x y = y.
Hypothesis choose_l : forall x y, R (choose x y) x.
Hypothesis choose_r : forall x y, R (choose x y) y.
Hypothesis R_refl : forall x, R x x.
Hypothesis R_trans : forall x y z, R x y -> R y z -> R x z.

Lemma fold_pick_spec (l : list Row) :
  (fold_right (fun r acc => pick choose (Date r) acc) None l = None <->
   Forall (fun r => Date r = None) l) /\
  (forall v, fold_right (fun r acc => pick choose (Date r) acc) None l = Some v ->
     (exists r, In r l /\ Date r = Some v) /\
     (forall r t, In r l -> Date r = Some t -> R v t)).
Proof.
induction l as [|a l [IHn IHs]]; cbn [fold_right].
- split; [split; [constructor | reflexivity]|]. intros v H. discriminate.
- set (m := fold_right (fun r acc => pick choose (Date r) acc) None l) in *.
  destruct (Date a) as [x|] eqn:Ea; destruct m as [y|] eqn:Em; cbn [pick].
  + split; [split; [discriminate | intro F; inversion F; congruence]|].
    intros v Hv. inversion Hv; subst v. clear Hv.
    destruct (IHs y eq_refl) as [(r & Hr & Hd) Hall]. split.
    * destruct (choose_one x y) as [E|E]; rewrite E;
        [exists a; split; [now left | assumption] | exists r; split; [now right | assumption]].
    * intros r' t [<-|Hin] Ht.
      -- assert (t = x) by congruence. subst t. apply choose_l.
      -- eapply R_trans; [apply choose_r | eapply Hall; eassumption].
  + split; [split; [discriminate | intro F; inversion F; congruence]|].
    intros v Hv. inversion Hv; subst v. clear Hv. split.
    * exists a. split; [now left | assumption].
    * intros r' t [<-|Hin] Ht.
      -- assert (t = x) by congruence. subst t. apply R_refl.
      -- pose proof (proj1 IHn eq_refl) as Hnone. rewrite Forall_forall in Hnone.
         apply Hnone in Hin. congruence.
  + split; [split; [discriminate|]|].
    * intro F. inversion F; subst. apply IHn in H2. discriminate.
    * intros v Hv. inversion Hv; subst v. clear Hv.
      destruct (IHs y eq_refl) as [(r & Hr & Hd) Hall]. split.
      -- exists r. split; [now right | assumption].
      -- intros r' t [<-|Hin] Ht; [congruence | eauto].
  + split; [|intros v Hv; discriminate].
    split; [intros _; constructor; [assumption | now apply IHn] | reflexivity].
Qed.

End Pick.

Lemma min_spec (l : list Row) :
  (fold_right (fun r acc => pick Z.min (Date r) acc) None l = None <->
   Forall (fun r => Date r = None) l) /\
  (forall v, fold_right (fun r acc => pick Z.min (Date r) acc) None l = Some v ->
     (exists r, In r l /\ Date r = Some v) /\
     (forall r t, In r l -> Date r = Some t -> (v <= t)%Z)).
Proof.
apply (fold_pick_spec Z.min Z.le); intros; lia.
Qed.

Lemma max_spec (l : list Row) :
  (fold_right (fun r acc => pick Z.max (Date r) acc) None l = None <->
   Forall (fun r => Date r = None) l) /\
  (forall v, fold_right (fun r acc => pick Z.max (Date r) acc) None l = Some v ->
     (exists r, In r l /\ Date r = Some v) /\
     (forall r t, In r l -> Date r = Some t -> (t <= v)%Z)).
Proof.
apply (fold_pick_spec Z.max (fun a b => (b <= a)%Z)); intros; lia.
Qed.

(** X16.  [df['Date'].min()] and [df['Date'].max()] are NaT exactly when
    the frame has no timestamp at all; otherwise each is the timestamp of
    some row and every timestamp of the frame lies between them. *)
Theorem Date_min_max (df : DataFrame) :
  (Date_min df = None <-> Forall (fun r => Date r = None) (rows df)) /\
  (Date_max df = None <-> Forall (fun r => Date r = None) (rows df)) /\
  (forall lo, Date_min df = Some lo ->
     (exists r, In r (rows df) /\ Date r = Some lo) /\
     (forall r t, In r (rows df) -> Date r = Some t -> (lo <= t)%Z)) /\
  (forall hi, Date_max df = Some hi ->
     (exists r, In r (rows df) /\ Date r = Some hi) /\
     (forall r t, In r (rows df) -> Date r = Some t -> (t <= hi)%Z)).
Proof.
unfold Date_min, Date_max.
destruct (min_spec (rows df)) as [Hn Hs]. destruct (max_spec (rows df)) as [Hn' Hs'].
split; [exact Hn|]. split; [exact Hn'|]. split; [exact Hs | exact Hs'].
Qed.

Lemma ns_per_day_pos : (0 < ns_per_day)%Z.
Proof. reflexivity. Qed.

Lemma midnight_le (t : Timestamp) : (Timestamp_of_date (to_date t) <= t)%Z.
Proof.
unfold Timestamp_of_date, to_date. rewrite Z.mul_comm.
apply Z.mul_div_le. exact ns_per_day_pos.
Qed.

Lemma midnight_exact (t : Timestamp) :
  (t mod ns_per_day = 0)%Z -> Timestamp_of_date (to_date t) = t.
Proof.
intro H. unfold Timestamp_of_date, to_date. rewrite Z.mul_comm. symmetry.
apply Z.div_exact; [|assumption]. pose proof ns_per_day_pos. lia.
Qed.

Lemma midnight_strict (t : Timestamp) :
  (t mod ns_per_day <> 0)%Z -> (Timestamp_of_date (to_date t) < t)%Z.
Proof.
intro H. pose proof (midnight_le t) as Hle.
destruct (Z.eq_dec (Timestamp_of_date (to_date t)) t) as [E|E]; [|lia].
exfalso. apply H. unfold Timestamp_of_date, to_date in E.
apply Z.div_exact; [pose proof ns_per_day_pos; lia|]. rewrite Z.mul_comm. now symmetry.
Qed.

Lemma to_date_of_date (d : Z) : to_date (Timestamp_of_date d) = d.
Proof.
unfold Timestamp_of_date, to_date. apply Z.div_mul.
pose proof ns_per_day_pos. lia.
Qed.

Lemma to_date_mono (a b : Timestamp) : (a <= b)%Z -> (to_date a <= to_date b)%Z.
Proof.
intro H. unfold to_date. apply Z.div_le_mono; [exact ns_per_day_pos | assumption].
Qed.

Lemma In_view (df : DataFrame) (sel : Selection) (r : Row) (t : Timestamp) :
  In r (rows df) -> Date r = Some t ->
  isin (City r) (selected_cities sel) = true ->
  (In r (rows (filtered_df df sel)) <-> (date_start sel <= t <= date_end sel)%Z).
Proof.
intros Hin Ht Hc. cbn [filtered_df rows]. rewrite filter_In. unfold mask.
rewrite Hc, Ht. cbn [andb date_ge date_le]. rewrite andb_true_iff, !Z.leb_le. tauto.
Qed.

(** X17.  With the date range the picker starts with (the day of the
    earliest and the day of the latest timestamp), a row of a selected
    city is in the view exactly when its timestamp is not after midnight
    of the last day.  So the rows carrying the latest timestamp are left
    out unless that timestamp is a midnight, and nothing is left out when
    every timestamp is a midnight. *)
Theorem default_range_view (df : DataFrame) (sel : Selection) (lo hi : Timestamp) :
  Date_min df = Some lo ->
  Date_max df = Some hi ->
  date_start sel = Timestamp_of_date (to_date lo) ->
  date_end sel = Timestamp_of_date (to_date hi) ->
  (forall r t, In r (rows df) -> Date r = Some t ->
     isin (City r) (selected_cities sel) = true ->
     (In r (rows (filtered_df df sel)) <-> (t <= Timestamp_of_date (to_date hi))%Z)) /\
  ((hi mod ns_per_day <> 0)%Z ->
     forall r, Date r = Some hi -> ~ In r (rows (filtered_df df sel))) /\
  ((forall r t, In r (rows df) -> Date r = Some t -> (t mod ns_per_day = 0)%Z) ->
     forall r t, In r (rows df) -> Date r = Some t ->
       isin (City r) (selected_cities sel) = true ->
       In r (rows (filtered_df df sel))).
Proof.
intros Hlo Hhi Hs He.
pose proof (proj2 (min_spec (rows df))) as Hmin.
pose proof (proj2 (max_spec (rows df))) as Hmax.
unfold Date_min in Hlo. unfold Date_max in Hhi.
destruct (Hmin lo Hlo) as [_ Hge]. destruct (Hmax hi Hhi) as [(rh & Hrh & Hdh) Hle].
assert (Hview : forall r t, In r (rows df) -> Date r = Some t ->
          isin (City r) (selected_cities sel) = true ->
          (In r (rows (filtered_df df sel)) <-> (t <= Timestamp_of_date (to_date hi))%Z)).
{ intros r t Hin Ht Hc. rewrite (In_view df sel r t Hin Ht Hc), Hs, He.
  pose proof (midnight_le lo). pose proof (Hge r t Hin Ht). lia. }
split; [exact Hview|]. split.
- intros Hmod r Hr Hin. pose proof (midnight_strict hi Hmod) as Hlt.
  cbn [filtered_df rows] in Hin. apply filter_In in Hin. destruct Hin as [_ Hm].
  unfold mask in Hm. rewrite Hr in Hm. cbn [date_ge date_le] in Hm.
  rewrite !andb_true_iff, !Z.leb_le in Hm. lia.
- intros Hmid r t Hin Ht Hc. apply (Hview r t Hin Ht Hc).
  rewrite (midnight_exact hi (Hmid rh hi Hrh Hdh)). eauto.
Qed.

Lemma default_range_view_witness :
  ~ In (Samples.reading "Delhi" 86400000000001 (Some 220))
       (rows (filtered_df Samples2.intraday Samples2.intraday_default)).
Proof.
refine (proj1 (proj2 (default_range_view Samples2.intraday Samples2.intraday_default
                        0%Z 86400000000001%Z eq_refl eq_refl eq_refl eq_refl)) _
          (Samples.reading "Delhi" 86400000000001 (Some 220)) eq_refl).
vm_compute. discriminate.
Defined.

(** X18.  The picker's tuple of days: on the empty tuple reading its
    first element raises; otherwise every row of the view falls on a day
    from the first to the last day of the tuple, and a row on the last
    day is in the view only if it is stamped at midnight. *)
Theorem picker_range_view (cs : list string) :
  selection_of_widgets cs [] = None /\
  forall d0 ds, exists sel,
    selection_of_widgets cs (d0 :: ds) = Some sel /\
    forall df r, In r (rows (filtered_df df sel)) ->
      exists t, Date r = Some t /\
        (d0 <= to_date t <= last (d0 :: ds) d0)%Z /\
        (to_date t = last (d0 :: ds) d0 ->
         t = Timestamp_of_date (last (d0 :: ds) d0)).
Proof.
split; [reflexivity|]. intros d0 ds. eexists. split; [reflexivity|].
intros df r Hin. cbn [filtered_df rows] in Hin. apply filter_In in Hin.
destruct Hin as [_ Hm]. apply mask_true in Hm.
destruct Hm as [_ (t & Ht & Hs & He)]. cbn [date_start date_end] in Hs, He.
exists t. split; [assumption|].
set (d1 := last (d0 :: ds) d0) in *.
pose proof (to_date_mono _ _ Hs) as H0. pose proof (to_date_mono _ _ He) as H1.
rewrite to_date_of_date in H0, H1.
split; [lia|]. intro Heq. pose proof (midnight_le t) as Hle. rewrite Heq in Hle. lia.
Qed.

End DateRangeFacts.

(** ** KPI block and per-city averages *)

Module KpiFacts.
Import Aggregator Spec Derived AggregatorFacts.

Lemma groupby_keys (view : list Row) :
  map fst (groupby_City_AQI_mean view) = group_keys view.
Proof.
unfold groupby_City_AQI_mean. rewrite map_map. cbn [fst]. apply map_id.
Qed.

(** X23.  The per-city series handed to the bar chart is in strictly
    ascending order of city name, so no city appears twice. *)
Theorem perCityMeans_sorted (v : DataFrame) :
  StronglySorted name_lt (map fst (perCityMeans v)) /\
  NoDup (map fst (perCityMeans v)).
Proof.
assert (Hs : StronglySorted name_lt (map fst (perCityMeans v))).
{ unfold perCityMeans, aqi_avg. destruct (in_columns "AQI" v); [|constructor].
  rewrite groupby_keys. apply group_keys_sorted. }
split; [exact Hs|].
induction Hs as [|a l Hs IH Hall]; constructor; [|assumption].
intro Hin. rewrite Forall_forall in Hall. specialize (Hall a Hin).
unfold name_lt in Hall. pose proof (String.compare_antisym a a) as E.
rewrite Hall in E. discriminate.
Qed.




End KpiFacts.


(** ** Worst and best city on the means as computed *)

Module ComputedFacts.
Import Aggregator Spec AggregatorFacts SidebarFacts KpiFacts.

Section Series.

Variable beats : Q -> Q -> bool.
Hypothesis beats_left : forall x y b,
  beats y b = true -> beats x b = false -> beats y x = true.
Hypothesis beats_trans : forall x y b,
  beats x b = true -> beats y x = true -> beats y b = true.
Hypothesis beats_asym : forall x y, beats x y = true -> beats y x = false.

Variable value : string -> num.

(** The label picked from a series given by its keys in ascending order:
    its value is extreme, and a key whose value it does not beat comes
    later. *)
Lemma extreme_of_series (keys : list string) (c : string) :
  StronglySorted name_lt keys ->
  first_extreme beats (map (fun k => (k, value k)) keys) = Some c ->
  exists m, value c = Some m /\ In c keys /\
    forall c' m', In c' keys -> value c' = Some m' ->
      beats m' m = false /\ (beats m m' = false -> c' = c \/ name_lt c c').
Proof.
intros Hsorted H. apply (first_extreme_spec beats beats_left beats_trans) in H.
destruct H as (pre & m & post & Hs & Hpre & Hpost).
assert (Hin : forall k v, In (k, v) (map (fun k => (k, value k)) keys) <->
                          In k keys /\ v = value k).
{ intros k v. rewrite in_map_iff. split.
  - intros (k' & E & Hk). inversion E; subst. auto.
  - intros [Hk ->]. eauto. }
assert (Hc : In (c, Some m) (map (fun k => (k, value k)) keys)).
{ rewrite Hs. apply in_or_app. right. now left. }
apply Hin in Hc. destruct Hc as [Hck Hm].
exists m. split; [now symmetry|]. split; [exact Hck|].
intros c' m' Hk' Hm'.
assert (Hin' : In (c', Some m') (map (fun k => (k, value k)) keys)).
{ apply Hin. split; [assumption | now symmetry]. }
rewrite Hs in Hin'. apply in_app_or in Hin'. destruct Hin' as [Hp|[Heq|Hp]].
- specialize (Hpre _ _ Hp). split; [now apply beats_asym | congruence].
- inversion Heq; subst. split; [|auto].
  destruct (beats m' m') eqn:E; [|reflexivity].
  pose proof (beats_asym _ _ E). congruence.
- split; [eauto|]. intros _. right.
  assert (Hk : keys = map fst pre ++ c :: map fst post).
  { transitivity (map fst (map (fun k => (k, value k)) keys)).
    - rewrite map_map. cbn [fst]. now rewrite map_id.
    - rewrite Hs, map_app. reflexivity. }
  rewrite Hk in Hsorted. apply sorted_after in Hsorted.
  rewrite Forall_forall in Hsorted. apply Hsorted.
  change c' with (fst (c', Some m')). now apply in_map.
Qed.

End Series.

Section Rounding.

Variable group_mean : list Q -> Q.

Lemma computed_mean_key (view : list Row) (c : string) (m : Q) :
  Computed.city_mean group_mean view c = Some m -> In c (group_keys view).
Proof.
unfold Computed.city_mean, Computed.mean, rows_of_city. intro H.
destruct (filter (city_is c) view) as [|r l] eqn:E; [discriminate|].
assert (Hin : In r (filter (city_is c) view)) by (rewrite E; now left).
apply filter_In in Hin. destruct Hin as [Hin Hc].
apply In_group_keys. exists r. split; [assumption | now apply city_is_true].
Qed.

Lemma computed_worst (view : list Row) (c : string) :
  Computed.worst_city group_mean view = Some c ->
  exists m, Computed.city_mean group_mean view c = Some m /\
    forall c' m', Computed.city_mean group_mean view c' = Some m' ->
      m' <= m /\ (m' == m -> c' = c \/ name_lt c c').
Proof.
intro H.
apply (extreme_of_series gt_num) in H; [| | | |apply group_keys_sorted];
  try (intros; order_facts; lra).
destruct H as (m & Hm & _ & Hall). exists m. split; [assumption|].
intros c' m' Hm'.
destruct (Hall c' m' (computed_mean_key _ _ _ Hm') Hm') as [H1 H2]. order_facts.
split; [assumption|]. intro Heq. apply H2. order_facts. lra.
Qed.

Lemma computed_best (view : list Row) (c : string) :
  Computed.best_city group_mean view = Some c ->
  exists m, Computed.city_mean group_mean view c = Some m /\
    forall c' m', Computed.city_mean group_mean view c' = Some m' ->
      m <= m' /\ (m' == m -> c' = c \/ name_lt c c').
Proof.
intro H.
apply (extreme_of_series lt_num) in H; [| | | |apply group_keys_sorted];
  try (intros; order_facts; lra).
destruct H as (m & Hm & _ & Hall). exists m. split; [assumption|].
intros c' m' Hm'.
destruct (Hall c' m' (computed_mean_key _ _ _ Hm') Hm') as [H1 H2]. order_facts.
split; [assumption|]. intro Heq. apply H2. order_facts. lra.
Qed.

Lemma computed_total (view : list Row) (c : string) (m : Q) :
  Computed.city_mean group_mean view c = Some m ->
  exists w b, Computed.worst_city group_mean view = Some w /\
              Computed.best_city group_mean view = Some b.
Proof.
intro H.
assert (Hin : In (c, Some m) (Computed.groupby_City_AQI_mean group_mean view)).
{ unfold Computed.groupby_City_AQI_mean. apply in_map_iff. exists c.
  split; [now rewrite H | eapply computed_mean_key; eassumption]. }
destruct (first_extreme_total gt_num _ _ _ Hin) as (w & Hw).
destruct (first_extreme_total lt_num _ _ _ Hin) as (b & Hb).
exists w, b. split; assumption.
Qed.

End Rounding.

(** Without rounding the computed means are the exact ones. *)
Lemma computed_exact (view : list Row) :
  Computed.worst_city arithmetic_mean view = worst_city view /\
  Computed.best_city arithmetic_mean view = best_city view.
Proof.
assert (H : Computed.groupby_City_AQI_mean arithmetic_mean view
            = groupby_City_AQI_mean view).
{ unfold Computed.groupby_City_AQI_mean, groupby_City_AQI_mean.
  apply map_ext. intro c. f_equal. unfold Computed.city_mean, Computed.mean.
  destruct (non_null (map AQI (rows_of_city c view))) eqn:E.
  - symmetry. now apply mean_NaN.
  - rewrite <- E. symmetry. apply mean_arithmetic. congruence. }
unfold Computed.worst_city, Computed.best_city, worst_city, best_city.
now rewrite H.
Qed.

(** C1 (as amended).  However pandas rounds a group's mean: the city
    reported as worst (best) has the maximum (minimum) among the per-city
    means as computed, and every other city whose computed mean is
    exactly the same has a name that sorts after it, so ties go to the
    first city in ascending name order, the order of the groupby keys.
    A worst and a best city are produced as soon as one city has a mean,
    and the answer is a function of the view alone. *)
Theorem computed_extreme_tie_break (group_mean : list Q -> Q) (view : list Row) :
  (forall c, Computed.worst_city group_mean view = Some c ->
     exists m, Computed.city_mean group_mean view c = Some m /\
       forall c' m', Computed.city_mean group_mean view c' = Some m' ->
         m' <= m /\ (m' == m -> c' = c \/ name_lt c c')) /\
  (forall c, Computed.best_city group_mean view = Some c ->
     exists m, Computed.city_mean group_mean view c = Some m /\
       forall c' m', Computed.city_mean group_mean view c' = Some m' ->
         m <= m' /\ (m' == m -> c' = c \/ name_lt c c')) /\
  (forall c m, Computed.city_mean group_mean view c = Some m ->
     exists w b, Computed.worst_city group_mean view = Some w /\
                 Computed.best_city group_mean view = Some b) /\
  (forall view', view' = view ->
     Computed.worst_city group_mean view' = Computed.worst_city group_mean view /\
     Computed.best_city group_mean view' = Computed.best_city group_mean view).
Proof.
split; [exact (computed_worst group_mean view)|].
split; [exact (computed_best group_mean view)|].
split; [exact (computed_total group_mean view)|].
intros view' ->. split; reflexivity.
Qed.

Lemma tied_view_keys : group_keys (rows Samples.tied) = ["Delhi"; "Mumbai"].
Proof. reflexivity. Qed.

Lemma tied_view_means (group_mean : list Q -> Q) (c : string) (x : Q) :
  Computed.city_mean group_mean (rows Samples.tied) c = Some x ->
  x = group_mean [100].
Proof.
intro H. pose proof (computed_mean_key _ _ _ _ H) as Hk. rewrite tied_view_keys in Hk.
destruct Hk as [<-|[<-|[]]]; vm_compute in H; now inversion H.
Qed.

Lemma tied_view_worst (group_mean : list Q -> Q) :
  Computed.worst_city group_mean (rows Samples.tied) = Some "Delhi".
Proof.
unfold Computed.worst_city, Computed.groupby_City_AQI_mean. rewrite tied_view_keys.
cbn [map].
change (Computed.city_mean group_mean (rows Samples.tied) "Delhi")
  with (Some (group_mean [100])).
change (Computed.city_mean group_mean (rows Samples.tied) "Mumbai")
  with (Some (group_mean [100])).
unfold idxmax. cbn [first_extreme scan_from].
assert (E : gt_num (group_mean [100]) (group_mean [100]) = false).
{ apply gt_num_false. apply Qle_refl. }
now rewrite E.
Qed.

(** C1 (counterexample).  In the view [tied] Mumbai and Delhi each have
    the single reading 100, so their computed means are the same number
    however the mean is rounded, and Mumbai's row comes first; yet Delhi
    is reported as worst city.  The tie is not broken by row order. *)
Lemma tie_break_not_by_row_order : ~ Computed.row_order_tie_break_possible.
Proof.
intros (group_mean & H).
destruct (H (rows Samples.tied) (group_mean [100]) "Mumbai") as [Hworst _].
- split.
  + exists (group_mean [100]). split; reflexivity.
  + intros c' (x & Hx & _) Hne.
    pose proof (computed_mean_key _ _ _ _ Hx) as Hk. rewrite tied_view_keys in Hk.
    destruct Hk as [<-|[<-|[]]]; [|congruence].
    vm_compute. lia.
- assert (Hmax : Computed.is_max_mean group_mean (rows Samples.tied) (group_mean [100])).
  { split.
    - exists "Delhi", (group_mean [100]). split; reflexivity.
    - intros c x Hx. apply tied_view_means in Hx. subst x. apply Qle_refl. }
  specialize (Hworst Hmax). rewrite tied_view_worst in Hworst. discriminate.
Qed.

(** X22.  However the means are rounded, one city is reported both as
    worst and as best only when all cities that have a mean have the same
    computed mean. *)
Theorem worst_is_best (group_mean : list Q -> Q) (view : list Row) (c : string) :
  Computed.worst_city group_mean view = Some c ->
  Computed.best_city group_mean view = Some c ->
  forall c1 m1 c2 m2,
    Computed.city_mean group_mean view c1 = Some m1 ->
    Computed.city_mean group_mean view c2 = Some m2 -> m1 == m2.
Proof.
intros Hw Hb c1 m1 c2 m2 H1 H2.
apply computed_worst in Hw. destruct Hw as (mw & Hmw & Hmax).
apply computed_best in Hb. destruct Hb as (mb & Hmb & Hmin).
assert (mw = mb) by congruence. subst mb.
pose proof (proj1 (Hmax _ _ H1)). pose proof (proj1 (Hmin _ _ H1)).
pose proof (proj1 (Hmax _ _ H2)). pose proof (proj1 (Hmin _ _ H2)). lra.
Qed.

Lemma worst_is_best_witness : 200 / inject_Z 2 == 100 / inject_Z 1.
Proof.
exact (worst_is_best arithmetic_mean Samples2.level "Delhi" eq_refl eq_refl
         "Delhi" _ "Mumbai" _ eq_refl eq_refl).
Defined.

End ComputedFacts.

(** ** The page *)

Module PageRun.
Import Loader FilterEngine Aggregator Alerts Sidebar Page Spec.
Import AlertsFacts LoaderFacts.





(** X14.  When the sidebar is valid, the pollutant has a column and the
    selection matches no row, the page still has all its sections: the
    KPI block shows the warning, the bar chart (drawn only if the frame
    has an AQI column) gets an empty series, and every picked city gets
    the no-data line. *)
Theorem page_on_empty_view (df : DataFrame) (w : Widgets) (sel : Selection) :
  forallb (fun c => existsb (String.eqb c) (cities df)) default_cities = true ->
  selection_of_widgets (picked_cities w) (picked_dates w) = Some sel ->
  in_columns (picked_pollutant w) df = true ->
  rows (filtered_df df sel) = [] ->
  dashboard df w
  = [SidebarHeader; CityPicker (cities df); DatePicker; PollutantPicker;
     Heading "Overall Air Quality Indicators"; KpiPanel Unavailable;
     Heading "Pollutant Level Trends";
     LineChart (filtered_df df sel) (picked_pollutant w);
     Heading "Average AQI Comparison Between Cities"]
      ++ (if in_columns "AQI" df then [BarChart []] else [])
      ++ [Heading "Pollutant Distribution Across Cities";
          BoxChart (filtered_df df sel) (picked_pollutant w);
          Heading "Latest AQI Alerts"]
      ++ map (fun city => AlertLine city NoData) (picked_cities w).
Proof.
intros Hdef Hsel Hcol Hempty. unfold dashboard. rewrite Hdef, Hsel.
change (in_columns (picked_pollutant w) (filtered_df df sel))
  with (in_columns (picked_pollutant w) df). rewrite Hcol.
assert (Hkpi : kpi (filtered_df df sel) = Unavailable).
{ unfold kpi, empty. rewrite Hempty. now rewrite andb_false_r. }
assert (Hbar : aqi_avg (filtered_df df sel)
               = if in_columns "AQI" df then Some [] else None).
{ unfold aqi_avg. rewrite Hempty.
  change (in_columns "AQI" (filtered_df df sel)) with (in_columns "AQI" df).
  reflexivity. }
assert (Halerts : map (fun ca => AlertLine (fst ca) (snd ca))
                    (alerts (filtered_df df sel) (picked_cities w))
                  = map (fun city => AlertLine city NoData) (picked_cities w)).
{ unfold alerts. rewrite map_map. apply map_ext. intro city. cbn [fst snd].
  f_equal. apply alert_no_row. now rewrite Hempty. }
unfold lower_half. rewrite Hkpi, Hbar, Halerts.
destruct (in_columns "AQI" df); reflexivity.
Qed.

Lemma page_on_empty_view_witness :
  dashboard Samples3.three_cities Samples3.out_of_range
  = [SidebarHeader; CityPicker ["Chennai"; "Delhi"; "Mumbai"]; DatePicker;
     PollutantPicker;
     Heading "Overall Air Quality Indicators"; KpiPanel Unavailable;
     Heading "Pollutant Level Trends";
     LineChart (mkFrame ["City"; "Date"; "AQI"; "PM2.5"] []) "PM2.5";
     Heading "Average AQI Comparison Between Cities";
     BarChart [];
     Heading "Pollutant Distribution Across Cities";
     BoxChart (mkFrame ["City"; "Date"; "AQI"; "PM2.5"] []) "PM2.5";
     Heading "Latest AQI Alerts";
     AlertLine "Delhi" NoData].
Proof.
exact (page_on_empty_view Samples3.three_cities Samples3.out_of_range
         (mkSelection ["Delhi"] (Timestamp_of_date 5) (Timestamp_of_date 6))
         eq_refl eq_refl eq_refl eq_refl).
Defined.

End PageRun.
